(** * SIL dataflow diagnostics (lib/SILPasses/DataflowDiagnostics.cpp)

    A shallow embedding of the pass that walks a SIL module and reports
    missing returns, non-exhaustive switches and returns from [noreturn]
    functions, followed by the properties of its decision tables.

    The pass only reads the IR and writes to the diagnostic engine of the
    AST context.  It is embedded in a small state monad over [ASTContext]
    whose outcome records whether a C++ assertion ([assert], [cast<>])
    stopped the run.  A second embedding keeps the module in a store and
    reaches it through pointers; it is shown to leave the module alone and
    to do to the context what the first embedding does. *)

From Stdlib Require Import List Bool NArith String Lia.
Import ListNotations.

#[local] Set Warnings "-register-all".

(* ================================================================== *)
(** ** The AST side: source positions, types, declarations *)

(** Modelled from the spec: swift/Basic/SourceLoc.h is not among the
    sources.  A position in a source buffer, or the invalid position. *)
Inductive SourceLoc : Type :=
| InvalidSourceLoc
| SourceLocAt (offset : N).

(** Modelled from the spec: swift/AST/Types.h is not among the sources.
    Types as far as the pass looks at them: the empty tuple is the "no
    value" type, a function type carries the "never returns" marker. *)
Inductive TypeBase : Type :=
| TupleType (Elements : list TypeBase)
| NominalType (Name : string)
| FunctionType (Input Result : TypeBase) (NoReturn : bool)
| ErrorType.

(** Modelled from the spec: [TypeBase::isVoid], the test for the "no
    value" type. *)
Definition isVoid (T : TypeBase) : bool :=
  match T with
  | TupleType [] => true
  | _ => false
  end.

(** Modelled from the spec: [AnyFunctionType] with its [isNoReturn]
    query, "is this function marked never-returning". *)
Record AnyFunctionType : Type := {
  getInput    : TypeBase;
  getResult   : TypeBase;
  isNoReturn  : bool
}.

(** Modelled from the spec: [TypeBase::castTo<AnyFunctionType>].  The
    cast asserts that the type is a function type, an invariant of the
    upstream phases; [None] stands for the failed assertion. *)
Definition castTo_AnyFunctionType (T : TypeBase) : option AnyFunctionType :=
  match T with
  | FunctionType i r n => Some {| getInput := i; getResult := r; isNoReturn := n |}
  | _ => None
  end.

(** Modelled from the spec: swift/AST/Expr.h is not among the sources.
    The function expression of a [FuncDecl], which carries the type of the
    function. *)
Record FuncExpr : Type := { getType : TypeBase }.

(** Modelled from the spec: swift/AST/Decl.h is not among the sources.
    The two queries of the pass on a [FuncDecl]: its declared result type
    and its function expression. *)
Record FuncDecl : Type := {
  getResultType : TypeBase;
  getFuncExpr   : FuncExpr
}.

(** Modelled from the spec: the AST nodes a location can tag
    (swift/AST/Decl.h, Stmt.h and Expr.h are not among the sources), as far
    as the pass tells them apart.  Among the declarations [FuncDecl],
    [ConstructorDecl] and [DestructorDecl] derive from
    [AbstractFunctionDecl]. *)
Inductive Decl : Type :=
| FuncDeclNode (FD : FuncDecl)
| ConstructorDeclNode
| DestructorDeclNode
| OtherDeclNode.

Inductive Stmt : Type :=
| SwitchStmtNode
| ReturnStmtNode
| OtherStmtNode.

Inductive Expr : Type :=
| ClosureExprNode
| OtherExprNode.

(** [isa<AbstractFunctionDecl>]. *)
Definition isa_AbstractFunctionDecl (D : Decl) : bool :=
  match D with
  | FuncDeclNode _ | ConstructorDeclNode | DestructorDeclNode => true
  | OtherDeclNode => false
  end.

(** [dyn_cast<FuncDecl>]. *)
Definition dyn_cast_FuncDecl (D : Decl) : option FuncDecl :=
  match D with
  | FuncDeclNode FD => Some FD
  | _ => None
  end.

(** [isa<SwitchStmt>]. *)
Definition isa_SwitchStmt (St : Stmt) : bool :=
  match St with
  | SwitchStmtNode => true
  | _ => false
  end.

(* ================================================================== *)
(** ** Diagnostics and the AST context *)

(** Modelled from the spec: swift/AST/Diagnostics.h is not among the
    sources.  The three diagnostics of the pass: [diag::missing_return],
    [diag::non_exhaustive_switch] and [diag::return_from_noreturn]. *)
Module diag.
Inductive ID : Type :=
| missing_return
| non_exhaustive_switch
| return_from_noreturn.
End diag.

Inductive DiagnosticArgument : Type :=
| TypeArgument (T : TypeBase).

(** Modelled from the spec: swift/AST/DiagnosticEngine.h is not among the
    sources.  One record handed to the engine: where, what, and with which
    arguments. *)
Record Diagnostic : Type := {
  diagLoc  : SourceLoc;
  diagID   : diag.ID;
  diagArgs : list DiagnosticArgument
}.

(** Modelled from the spec: the diagnostic engine, an append-only sink
    of records. *)
Record DiagnosticEngine : Type := { emitted : list Diagnostic }.

Definition DiagnosticEngine_diagnose
    (E : DiagnosticEngine) (loc : SourceLoc) (id : diag.ID)
    (args : list DiagnosticArgument) : DiagnosticEngine :=
  {| emitted := emitted E ++ [{| diagLoc := loc; diagID := id; diagArgs := args |}] |}.

(** Modelled from the spec: swift/AST/ASTContext.h is not among the
    sources.  The context owns the diagnostic engine, [Context.Diags]. *)
Record ASTContext : Type := { Diags : DiagnosticEngine }.

(* ================================================================== *)
(** ** SIL locations *)

Module SILLocation.

(** Modelled from the spec: swift/SIL/SILLocation.h is not among the
    sources.  The primary AST node of a location: a statement, an
    expression, a declaration or a pattern.  The C++ pointer union may be
    null, which is [None] in [ASTNode] below. *)
Inductive ASTNodeTy : Type :=
| StmtPtr (St : Stmt)
| ExprPtr (E : Expr)
| DeclPtr (D : Decl)
| PatternPtr.

(** Modelled from the spec: the kinds of locations; [ReturnKind] tags an
    explicit return, [ImplicitReturnKind] an implicit one. *)
Inductive LocationKind : Type :=
| RegularKind
| ReturnKind
| ImplicitReturnKind
| OtherKind.

(** Modelled from the spec: a location is absent (no AST node) or tags
    the construct it was lowered from, and yields a start and an end
    position.  The pass asks for the tag through two families of queries,
    on the AST node ([isASTNode], [getAsASTNode]) and on the kind of the
    location ([is]); the two are kept apart here.  [StartLoc] and [EndLoc]
    are what [getSourceLoc] and [getEndSourceLoc] report. *)
Record t : Type := {
  ASTNode  : option ASTNodeTy;
  Kind     : LocationKind;
  StartLoc : SourceLoc;
  EndLoc   : SourceLoc
}.

(** Modelled from the spec: a location is null when it is absent. *)
Definition isNull (L : t) : bool :=
  match ASTNode L with
  | None => true
  | Some _ => false
  end.

(** [explicit operator bool]. *)
Definition toBool (L : t) : bool := negb (isNull L).

(** Modelled from the spec: [hasASTLocation], "does this instruction
    carry a source location". *)
Definition hasASTLocation (L : t) : bool :=
  match ASTNode L with
  | None => false
  | Some _ => true
  end.

(** [isASTNode<AbstractFunctionDecl>]. *)
Definition isASTNode_AbstractFunctionDecl (L : t) : bool :=
  match ASTNode L with
  | Some (DeclPtr D) => isa_AbstractFunctionDecl D
  | _ => false
  end.

(** [isASTNode<SwitchStmt>]. *)
Definition isASTNode_SwitchStmt (L : t) : bool :=
  match ASTNode L with
  | Some (StmtPtr St) => isa_SwitchStmt St
  | _ => false
  end.

(** [getAsASTNode<FuncDecl>]. *)
Definition getAsASTNode_FuncDecl (L : t) : option FuncDecl :=
  match ASTNode L with
  | Some (DeclPtr D) => dyn_cast_FuncDecl D
  | _ => None
  end.

(** [is<ReturnLocation>]. *)
Definition is_ReturnLocation (L : t) : bool :=
  match Kind L with
  | ReturnKind => true
  | _ => false
  end.

(** [is<ImplicitReturnLocation>]. *)
Definition is_ImplicitReturnLocation (L : t) : bool :=
  match Kind L with
  | ImplicitReturnKind => true
  | _ => false
  end.

(** Modelled from the spec: [getSourceLoc] is the start position of the
    location, [getEndSourceLoc] its end position. *)
Definition getSourceLoc (L : t) : SourceLoc := StartLoc L.
Definition getEndSourceLoc (L : t) : SourceLoc := EndLoc L.

End SILLocation.

(* ================================================================== *)
(** ** The SIL object graph *)

(** Modelled from the spec: swift/SIL/SILInstruction.h is not among the
    sources.  Instruction kinds: [UnreachableInst], [ReturnInst],
    [BranchInst] and the remaining terminators derive from [TermInst]; the
    pass ignores everything else. *)
Inductive ValueKind : Type :=
| UnreachableInstKind
| ReturnInstKind
| BranchInstKind
| OtherTermInstKind
| NonTermInstKind.

(** Modelled from the spec: swift/SIL/SILModule.h, SILFunction.h and
    SILBasicBlock.h are not among the sources.  A module owns an ordered
    collection of functions, a function its location and an ordered
    sequence of blocks, a block an ordered sequence of instructions, an
    instruction its kind and its location. *)
Record SILInstruction : Type := {
  getKind : ValueKind;
  Loc     : SILLocation.t
}.

Record SILBasicBlock : Type := { InstList : list SILInstruction }.

Record SILFunction : Type := {
  Location  : SILLocation.t;
  BlockList : list SILBasicBlock
}.

Record SILModule : Type := { functions : list SILFunction }.

(** The C++ objects hold back-references to their owners.  A pointer to a
    block or an instruction is the object together with its owners, which
    is what [getParent] walks. *)
Record SILBasicBlockPtr : Type := {
  theBlock       : SILBasicBlock;
  parentFunction : SILFunction
}.

Record SILInstructionPtr : Type := {
  theInst     : SILInstruction;
  parentBlock : SILBasicBlockPtr
}.

Module BB.
Definition getParent (B : SILBasicBlockPtr) : SILFunction := parentFunction B.
End BB.

Module Inst.
Definition getParent (I : SILInstructionPtr) : SILBasicBlockPtr := parentBlock I.
Definition getLoc (I : SILInstructionPtr) : SILLocation.t := Loc (theInst I).
Definition kind (I : SILInstructionPtr) : ValueKind := getKind (theInst I).
End Inst.

Module Fn.
Definition getLocation (F : SILFunction) : SILLocation.t := Location F.
End Fn.

(** [dyn_cast<UnreachableInst>]. *)
Definition dyn_cast_UnreachableInst (I : SILInstructionPtr) : option SILInstructionPtr :=
  match Inst.kind I with
  | UnreachableInstKind => Some I
  | _ => None
  end.

(** [dyn_cast<TermInst>]. *)
Definition dyn_cast_TermInst (I : SILInstructionPtr) : option SILInstructionPtr :=
  match Inst.kind I with
  | UnreachableInstKind | ReturnInstKind | BranchInstKind | OtherTermInstKind => Some I
  | NonTermInstKind => None
  end.

Definition isa_BranchInst (TI : SILInstructionPtr) : bool :=
  match Inst.kind TI with BranchInstKind => true | _ => false end.

Definition isa_ReturnInst (TI : SILInstructionPtr) : bool :=
  match Inst.kind TI with ReturnInstKind => true | _ => false end.

(* ================================================================== *)
(** ** The monad of the pass *)

(** A computation either runs to its end or stops at a failed assertion;
    what it handed to the diagnostic engine before stays there. *)
Inductive Outcome (A : Type) : Type :=
| Done (a : A)
| AssertionFailed.

Arguments Done {A} a.
Arguments AssertionFailed {A}.

Definition Pass (A : Type) : Type := ASTContext -> Outcome A * ASTContext.

Definition ret {A} (a : A) : Pass A := fun C => (Done a, C).

Definition bind {A B} (m : Pass A) (k : A -> Pass B) : Pass B :=
  fun C =>
    match m C with
    | (Done a, C') => k a C'
    | (AssertionFailed, C') => (AssertionFailed, C')
    end.

Declare Scope pass_scope.
Delimit Scope pass_scope with pass.
Bind Scope pass_scope with Pass.

Notation "x <- m ;; k" := (bind m (fun x => k))
  (at level 61, m at next level, right associativity) : pass_scope.
Notation "m ;; k" := (bind m (fun _ => k))
  (at level 61, right associativity) : pass_scope.

Local Open Scope pass_scope.

(** [assert(b)]. *)
Definition assert (b : bool) : Pass unit :=
  fun C => (if b then Done tt else AssertionFailed, C).

(** A C++ [cast<>] whose result is [None] when its assertion fails. *)
Definition checked {A} (o : option A) : Pass A :=
  fun C => (match o with Some a => Done a | None => AssertionFailed end, C).

(** A range-based [for] loop. *)
Fixpoint forEach {A} (xs : list A) (body : A -> Pass unit) : Pass unit :=
  match xs with
  | [] => ret tt
  | x :: xs' => body x ;; forEach xs' body
  end.

(* ================================================================== *)
(** ** The pass *)

(** The file-local [diagnose] helper: forwards to [Context.Diags]. *)
Definition diagnose (loc : SourceLoc) (id : diag.ID)
    (args : list DiagnosticArgument) : Pass unit :=
  fun Context =>
    (Done tt, {| Diags := DiagnosticEngine_diagnose (Diags Context) loc id args |}).

Definition diagnoseMissingReturn (UI : SILInstructionPtr) : Pass unit :=
  let BB := Inst.getParent UI in
  let F := BB.getParent BB in
  let FLoc := Fn.getLocation F in
  match SILLocation.getAsASTNode_FuncDecl FLoc with
  | Some FD =>
      let ResTy := Some (getResultType FD) in
      if isVoid (getResultType FD) then ret tt
      else
        T <- checked (castTo_AnyFunctionType (getType (getFuncExpr FD))) ;;
        if isNoReturn T then ret tt
        else
          (* If the function does not return void, issue the diagnostic. *)
          let L := Inst.getLoc UI in
          assert (SILLocation.toBool L &&
                  match ResTy with Some _ => true | None => false end) ;;
          diagnose (SILLocation.getEndSourceLoc L) diag.missing_return
                   [TypeArgument (getResultType FD)]
  | None =>
      (* Not all closure types have the result type getter right now. *)
      ret tt
  end.

Definition diagnoseNonExhaustiveSwitch (UI : SILInstructionPtr) : Pass unit :=
  let L := Inst.getLoc UI in
  assert (SILLocation.toBool L) ;;
  diagnose (SILLocation.getEndSourceLoc L) diag.non_exhaustive_switch [].

Definition diagnoseUnreachable (I : SILInstructionPtr) : Pass unit :=
  match dyn_cast_UnreachableInst I with
  | Some UI =>
      let L := Inst.getLoc UI in
      (* Invalid location: the instruction was generated by SIL passes. *)
      if negb (SILLocation.hasASTLocation L) then ret tt
      else if SILLocation.isASTNode_AbstractFunctionDecl L then
        diagnoseMissingReturn UI
      else if SILLocation.isASTNode_SwitchStmt L then
        diagnoseNonExhaustiveSwitch UI
      else ret tt
  | None => ret tt
  end.

Definition diagnoseReturn (I : SILInstructionPtr) : Pass unit :=
  match dyn_cast_TermInst I with
  | None => ret tt
  | Some TI =>
      if negb (isa_BranchInst TI || isa_ReturnInst TI) then ret tt
      else
        let BB := Inst.getParent TI in
        let F := BB.getParent BB in
        let FLoc := Fn.getLocation F in
        match SILLocation.getAsASTNode_FuncDecl FLoc with
        | Some FD =>
            T <- checked (castTo_AnyFunctionType (getType (getFuncExpr FD))) ;;
            (* Warn if we reach a return inside a noreturn function. *)
            if isNoReturn T then
              let L := Inst.getLoc TI in
              (if SILLocation.is_ReturnLocation L
               then diagnose (SILLocation.getSourceLoc L) diag.return_from_noreturn []
               else ret tt) ;;
              (if SILLocation.is_ImplicitReturnLocation L
               then diagnose (SILLocation.getSourceLoc L) diag.return_from_noreturn []
               else ret tt)
            else ret tt
        | None => ret tt
        end
  end.

(** The body of the innermost loop, for the instruction [I] of block [BB]
    of function [Fn]. *)
Definition visitInstruction (I : SILInstructionPtr) : Pass unit :=
  diagnoseUnreachable I ;;
  diagnoseReturn I.

Definition emitSILDataflowDiagnostics (M : SILModule) : Pass unit :=
  forEach (functions M) (fun Fn =>
    forEach (BlockList Fn) (fun BB =>
      forEach (InstList BB) (fun I =>
        visitInstruction
          {| theInst := I;
             parentBlock := {| theBlock := BB; parentFunction := Fn |} |}))).

(* ================================================================== *)
(** ** Observing a run *)

(** The context after [ds] more records went to the engine. *)
Definition handed (C : ASTContext) (ds : list Diagnostic) : ASTContext :=
  {| Diags := {| emitted := emitted (Diags C) ++ ds |} |}.

Definition emptyContext : ASTContext := {| Diags := {| emitted := [] |} |}.

(** What a computation hands to a fresh engine, and how it ends. *)
Definition log {A} (m : Pass A) : list Diagnostic :=
  emitted (Diags (snd (m emptyContext))).

Definition outcome {A} (m : Pass A) : Outcome A := fst (m emptyContext).

(** A computation that never reads the engine: from every context it ends
    the same way and appends the same records. *)
Definition WriteOnly {A} (m : Pass A) : Prop :=
  forall C, m C = (outcome m, handed C (log m)).

(** The module in declaration order: every instruction with its owners,
    and every classifier call of the traversal. *)
Definition instructionsOf (Fn : SILFunction) : list SILInstructionPtr :=
  flat_map (fun BB =>
    map (fun I => {| theInst := I;
                     parentBlock := {| theBlock := BB; parentFunction := Fn |} |})
        (InstList BB))
    (BlockList Fn).

Definition instructionsOfModule (M : SILModule) : list SILInstructionPtr :=
  flat_map instructionsOf (functions M).

Definition classifierCalls (M : SILModule) : list (Pass unit) :=
  flat_map (fun I => [diagnoseUnreachable I; diagnoseReturn I])
           (instructionsOfModule M).

(** The function an instruction belongs to: [I->getParent()->getParent()]. *)
Definition enclosingFunction (I : SILInstructionPtr) : SILFunction :=
  BB.getParent (Inst.getParent I).

Definition mkDiag (loc : SourceLoc) (id : diag.ID)
    (args : list DiagnosticArgument) : Diagnostic :=
  {| diagLoc := loc; diagID := id; diagArgs := args |}.

(** The missing-return decision as a function of two things only: the
    location of the enclosing function and the end position of the
    instruction.  The first component tells how the classifier ends, the
    second what it hands to the engine. *)
Definition missingReturnDecision (FLoc : SILLocation.t) (endLoc : SourceLoc)
    : Outcome unit * list Diagnostic :=
  match SILLocation.getAsASTNode_FuncDecl FLoc with
  | None => (Done tt, [])
  | Some FD =>
      if isVoid (getResultType FD) then (Done tt, [])
      else
        match castTo_AnyFunctionType (getType (getFuncExpr FD)) with
        | None => (AssertionFailed, [])
        | Some T =>
            if isNoReturn T then (Done tt, [])
            else (Done tt, [mkDiag endLoc diag.missing_return
                                   [TypeArgument (getResultType FD)]])
        end
  end.

(** The invariant the casts of the pass rely on: the function expression
    of a resolved declaration has a function type. *)
Definition wellTypedFunction (Fn : SILFunction) : bool :=
  match SILLocation.getAsASTNode_FuncDecl (Fn.getLocation Fn) with
  | Some FD =>
      match castTo_AnyFunctionType (getType (getFuncExpr FD)) with
      | Some _ => true
      | None => false
      end
  | None => true
  end.

Definition wellTypedModule (M : SILModule) : bool :=
  forallb wellTypedFunction (functions M).

(* ================================================================== *)
(** ** A sample module *)

Module Sample.

Definition Int : TypeBase := NominalType "Int".
Definition String : TypeBase := NominalType "String".
Definition Void : TypeBase := TupleType [].

Definition functionDecl (result : TypeBase) (noreturn : bool) : FuncDecl :=
  {| getResultType := result;
     getFuncExpr := {| getType := FunctionType Void result noreturn |} |}.

(** A regular location for an AST node spanning [from .. to]. *)
Definition at_ (node : SILLocation.ASTNodeTy) (kind : SILLocation.LocationKind)
    (from to : N) : SILLocation.t :=
  {| SILLocation.ASTNode := Some node;
     SILLocation.Kind := kind;
     SILLocation.StartLoc := SourceLocAt from;
     SILLocation.EndLoc := SourceLocAt to |}.

(** The location of an instruction made up by a SIL pass. *)
Definition synthetic : SILLocation.t :=
  {| SILLocation.ASTNode := None;
     SILLocation.Kind := SILLocation.RegularKind;
     SILLocation.StartLoc := InvalidSourceLoc;
     SILLocation.EndLoc := InvalidSourceLoc |}.

Definition inst (k : ValueKind) (L : SILLocation.t) : SILInstruction :=
  {| getKind := k; Loc := L |}.

(** [func f() -> Int { if cond { return 1 } }]: falls off its end. *)
Definition decl_f : FuncDecl := functionDecl Int false.
Definition span_f : SILLocation.t :=
  at_ (SILLocation.DeclPtr (FuncDeclNode decl_f)) SILLocation.RegularKind 0 40.
Definition sil_f : SILFunction :=
  {| Location := span_f;
     BlockList :=
       [ {| InstList := [inst NonTermInstKind
                           (at_ (SILLocation.ExprPtr OtherExprNode) SILLocation.RegularKind 20 24);
                         inst OtherTermInstKind
                           (at_ (SILLocation.StmtPtr OtherStmtNode) SILLocation.RegularKind 17 38)] |};
         {| InstList := [inst ReturnInstKind
                           (at_ (SILLocation.StmtPtr ReturnStmtNode) SILLocation.ReturnKind 27 35)] |};
         {| InstList := [inst UnreachableInstKind span_f] |} ] |}.

(** [@noreturn func g() { while cond {}; return }]: returns all the same. *)
Definition decl_g : FuncDecl := functionDecl Void true.
Definition span_g : SILLocation.t :=
  at_ (SILLocation.DeclPtr (FuncDeclNode decl_g)) SILLocation.RegularKind 50 99.
Definition sil_g : SILFunction :=
  {| Location := span_g;
     BlockList :=
       [ {| InstList := [inst BranchInstKind
                           (at_ (SILLocation.StmtPtr OtherStmtNode) SILLocation.RegularKind 70 85)] |};
         {| InstList := [inst OtherTermInstKind
                           (at_ (SILLocation.StmtPtr OtherStmtNode) SILLocation.RegularKind 70 85)] |};
         {| InstList := [inst ReturnInstKind
                           (at_ (SILLocation.StmtPtr ReturnStmtNode) SILLocation.ReturnKind 90 96)] |} ] |}.

(** [func h(e: E) { switch e { case .A: () } }]: a case is missing. *)
Definition decl_h : FuncDecl := functionDecl Void false.
Definition span_h : SILLocation.t :=
  at_ (SILLocation.DeclPtr (FuncDeclNode decl_h)) SILLocation.RegularKind 100 160.
Definition switch_h : SILLocation.t :=
  at_ (SILLocation.StmtPtr SwitchStmtNode) SILLocation.RegularKind 120 158.
Definition sil_h : SILFunction :=
  {| Location := span_h;
     BlockList :=
       [ {| InstList := [inst OtherTermInstKind switch_h] |};
         {| InstList := [inst UnreachableInstKind switch_h] |};
         {| InstList := [inst ReturnInstKind
                           (at_ (SILLocation.DeclPtr (FuncDeclNode decl_h))
                                SILLocation.ImplicitReturnKind 100 160)] |} ] |}.

(** A closure: its location is an expression, no [FuncDecl] resolves. *)
Definition span_closure : SILLocation.t :=
  at_ (SILLocation.ExprPtr ClosureExprNode) SILLocation.RegularKind 200 230.
Definition sil_closure : SILFunction :=
  {| Location := span_closure;
     BlockList :=
       [ {| InstList := [inst UnreachableInstKind span_f;
                         inst UnreachableInstKind synthetic] |};
         {| InstList := [inst ReturnInstKind
                           (at_ (SILLocation.StmtPtr ReturnStmtNode) SILLocation.ReturnKind 210 220)] |} ] |}.

Definition module : SILModule :=
  {| functions := [sil_f; sil_g; sil_h; sil_closure] |}.

(** A pointer to the instruction [i] of a one-block function located at
    [FLoc]. *)
Definition pointer (i : SILInstruction) (FLoc : SILLocation.t) : SILInstructionPtr :=
  {| theInst := i;
     parentBlock :=
       {| theBlock := {| InstList := [i] |};
          parentFunction :=
            {| Location := FLoc; BlockList := [{| InstList := [i] |}] |} |} |}.

(** The [n]-th instruction of [module] in declaration order, as the
    traversal points to it. *)
Definition instruction (n : nat) : SILInstructionPtr :=
  nth n (instructionsOfModule module)
      (pointer (inst NonTermInstKind synthetic) synthetic).

(** [func s() -> String]. *)
Definition decl_s : FuncDecl := functionDecl String false.
Definition span_s : SILLocation.t :=
  at_ (SILLocation.DeclPtr (FuncDeclNode decl_s)) SILLocation.RegularKind 300 350.

(** An engine that already holds a record. *)
Definition busyContext : ASTContext :=
  {| Diags := {| emitted := [mkDiag (SourceLocAt 7) diag.non_exhaustive_switch []] |} |}.

(** What the pass reports for [module]. *)
Definition expected : list Diagnostic :=
  [ mkDiag (SourceLocAt 40) diag.missing_return [TypeArgument Int];
    mkDiag (SourceLocAt 90) diag.return_from_noreturn [];
    mkDiag (SourceLocAt 158) diag.non_exhaustive_switch [] ].

End Sample.

(* ================================================================== *)
(** ** Notions for the properties of whole modules *)

(** The instructions a classifier may act on: the three kinds the two
    [dyn_cast]/[isa] tests let through. *)
Definition diagnosable (i : SILInstruction) : bool :=
  match getKind i with
  | UnreachableInstKind | ReturnInstKind | BranchInstKind => true
  | OtherTermInstKind | NonTermInstKind => false
  end.

(** A module without the instructions no classifier acts on. *)
Definition stripBlock (B : SILBasicBlock) : SILBasicBlock :=
  {| InstList := filter diagnosable (InstList B) |}.

Definition stripFunction (Fn : SILFunction) : SILFunction :=
  {| Location := Location Fn; BlockList := map stripBlock (BlockList Fn) |}.

Definition stripModule (M : SILModule) : SILModule :=
  {| functions := map stripFunction (functions M) |}.

(** The instructions of a function, block boundaries forgotten. *)
Definition flatInstList (Fn : SILFunction) : list SILInstruction :=
  flat_map InstList (BlockList Fn).

(** Two functions with the same location and the same instructions in the
    same order, however the instructions are grouped into blocks. *)
Definition sameInstructions (Fn Fn' : SILFunction) : Prop :=
  Location Fn = Location Fn' /\ flatInstList Fn = flatInstList Fn'.

(** A pointer to the instruction [i] in a function located at [FLoc]
    that holds nothing else. *)
Definition standalone (FLoc : SILLocation.t) (i : SILInstruction) : SILInstructionPtr :=
  {| theInst := i;
     parentBlock :=
       {| theBlock := {| InstList := [i] |};
          parentFunction :=
            {| Location := FLoc; BlockList := [{| InstList := [i] |}] |} |} |}.

(** The functions of [M1] followed by those of [M2]. *)
Definition joinModules (M1 M2 : SILModule) : SILModule :=
  {| functions := functions M1 ++ functions M2 |}.

(** The arguments a record must carry: [missing_return] one type that is
    not the empty tuple, the other two diagnostics none. *)
Definition wellFormedRecord (d : Diagnostic) : bool :=
  match diagID d, diagArgs d with
  | diag.missing_return, [TypeArgument T] => negb (isVoid T)
  | diag.missing_return, _ => false
  | _, [] => true
  | _, _ => false
  end.

(** Further sample values. *)
Module Cases.

(** A declaration whose function expression did not get a function type. *)
Definition decl_bad : FuncDecl :=
  {| getResultType := Sample.Int; getFuncExpr := {| getType := ErrorType |} |}.
Definition span_bad : SILLocation.t :=
  Sample.at_ (SILLocation.DeclPtr (FuncDeclNode decl_bad)) SILLocation.RegularKind 400 450.
Definition sil_bad : SILFunction :=
  {| Location := span_bad;
     BlockList := [ {| InstList := [Sample.inst UnreachableInstKind span_bad] |} ] |}.

(** The function [f] of the sample with all its instructions in one
    block. *)
Definition sil_f_one_block : SILFunction :=
  {| Location := Sample.span_f;
     BlockList := [ {| InstList := flatInstList Sample.sil_f |} ] |}.

(** An unreachable instruction with the span of [f], and the same with
    another kind of location and another start position. *)
Definition unreachable_f : SILInstructionPtr :=
  Sample.pointer (Sample.inst UnreachableInstKind Sample.span_f) Sample.span_f.
Definition unreachable_f_retagged : SILInstructionPtr :=
  Sample.pointer
    (Sample.inst UnreachableInstKind
       {| SILLocation.ASTNode := SILLocation.ASTNode Sample.span_f;
          SILLocation.Kind := SILLocation.ReturnKind;
          SILLocation.StartLoc := SourceLocAt 5;
          SILLocation.EndLoc := SILLocation.EndLoc Sample.span_f |})
    Sample.span_f.

(** The records of the sample module, one by one. *)
Definition record_f : Diagnostic :=
  mkDiag (SourceLocAt 40) diag.missing_return [TypeArgument Sample.Int].
Definition record_g : Diagnostic :=
  mkDiag (SourceLocAt 90) diag.return_from_noreturn [].
Definition record_h : Diagnostic :=
  mkDiag (SourceLocAt 158) diag.non_exhaustive_switch [].

End Cases.

(* ================================================================== *)
(** ** The pass on a store *)

(** The C++ pass does not receive the IR by value: it walks the objects of
    the module in memory through pointers and could write to them.  Here
    the module lives in the store next to the AST context, a pointer is a
    path from the module to the object, and every access of the pass reads
    the store at the time it happens. *)
Module Store.

Record World : Type := {
  IR      : SILModule;
  Context : ASTContext
}.

(** A run ends normally, stops at a failed assertion, or follows a pointer
    to no object of the module. *)
Inductive Status (A : Type) : Type :=
| Finished (a : A)
| Stopped
| Invalid.

Arguments Finished {A} a.
Arguments Stopped {A}.
Arguments Invalid {A}.

Definition Exec (A : Type) : Type := World -> Status A * World.

Definition ret {A} (a : A) : Exec A := fun W => (Finished a, W).

Definition bind {A B} (m : Exec A) (k : A -> Exec B) : Exec B :=
  fun W =>
    match m W with
    | (Finished a, W') => k a W'
    | (Stopped, W') => (Stopped, W')
    | (Invalid, W') => (Invalid, W')
    end.

Declare Scope exec_scope.
Delimit Scope exec_scope with exec.
Bind Scope exec_scope with Exec.

Notation "x <- m ;; k" := (bind m (fun x => k))
  (at level 61, m at next level, right associativity) : exec_scope.
Notation "m ;; k" := (bind m (fun _ => k))
  (at level 61, right associativity) : exec_scope.

Local Open Scope exec_scope.

(** [assert(b)]. *)
Definition assert (b : bool) : Exec unit :=
  fun W => (if b then Finished tt else Stopped, W).

(** A C++ [cast<>] whose result is [None] when its assertion fails. *)
Definition checked {A} (o : option A) : Exec A :=
  fun W => (match o with Some a => Finished a | None => Stopped end, W).

(** A read of the store through a pointer. *)
Definition load {A} (find : World -> option A) : Exec A :=
  fun W => (match find W with Some a => Finished a | None => Invalid end, W).

(** A range-based [for] loop over the pointers [xs]. *)
Fixpoint forEach {A} (xs : list A) (body : A -> Exec unit) : Exec unit :=
  match xs with
  | [] => ret tt
  | x :: xs' => body x ;; forEach xs' body
  end.

(** Pointers: a function by its place in the module, a block by its
    function and its place there, an instruction by its block and its
    place there. *)
Definition FunctionAddr : Type := nat.

Record BlockAddr : Type := {
  ownerFunction : FunctionAddr;
  blockIndex    : nat
}.

Record InstAddr : Type := {
  ownerBlock : BlockAddr;
  instIndex  : nat
}.

(** The objects behind the pointers. *)
Definition functionAt (F : FunctionAddr) (W : World) : option SILFunction :=
  nth_error (functions (IR W)) F.

Definition blockAt (B : BlockAddr) (W : World) : option SILBasicBlock :=
  match functionAt (ownerFunction B) W with
  | Some Fn => nth_error (BlockList Fn) (blockIndex B)
  | None => None
  end.

Definition instAt (I : InstAddr) (W : World) : option SILInstruction :=
  match blockAt (ownerBlock I) W with
  | Some B => nth_error (InstList B) (instIndex I)
  | None => None
  end.

(** [I->getParent()], [BB->getParent()]. *)
Definition getParent (I : InstAddr) : BlockAddr := ownerBlock I.
Definition getParentFunction (B : BlockAddr) : FunctionAddr := ownerFunction B.

(** [I->getLoc()], the kind behind [dyn_cast] and [isa], and
    [F->getLocation()]: each reads the object. *)
Definition getLoc (I : InstAddr) : Exec SILLocation.t :=
  i <- load (instAt I) ;; ret (Loc i).

Definition kindOf (I : InstAddr) : Exec ValueKind :=
  i <- load (instAt I) ;; ret (getKind i).

Definition getLocation (F : FunctionAddr) : Exec SILLocation.t :=
  Fn <- load (functionAt F) ;; ret (Location Fn).

(** [dyn_cast<UnreachableInst>]. *)
Definition dyn_cast_UnreachableInst (I : InstAddr) : Exec (option InstAddr) :=
  k <- kindOf I ;;
  ret (match k with
       | UnreachableInstKind => Some I
       | _ => None
       end).

(** [dyn_cast<TermInst>]. *)
Definition dyn_cast_TermInst (I : InstAddr) : Exec (option InstAddr) :=
  k <- kindOf I ;;
  ret (match k with
       | UnreachableInstKind | ReturnInstKind | BranchInstKind
       | OtherTermInstKind => Some I
       | NonTermInstKind => None
       end).

Definition isa_BranchInst (TI : InstAddr) : Exec bool :=
  k <- kindOf TI ;;
  ret (match k with BranchInstKind => true | _ => false end).

Definition isa_ReturnInst (TI : InstAddr) : Exec bool :=
  k <- kindOf TI ;;
  ret (match k with ReturnInstKind => true | _ => false end).

(** The file-local [diagnose] helper: the one write of the pass, to
    [Context.Diags]. *)
Definition diagnose (loc : SourceLoc) (id : diag.ID)
    (args : list DiagnosticArgument) : Exec unit :=
  fun W =>
    (Finished tt,
     {| IR := IR W;
        Context :=
          {| Diags := DiagnosticEngine_diagnose (Diags (Context W)) loc id args |} |}).

Definition diagnoseMissingReturn (UI : InstAddr) : Exec unit :=
  let BB := getParent UI in
  let F := getParentFunction BB in
  FLoc <- getLocation F ;;
  match SILLocation.getAsASTNode_FuncDecl FLoc with
  | Some FD =>
      let ResTy := Some (getResultType FD) in
      if isVoid (getResultType FD) then ret tt
      else
        T <- checked (castTo_AnyFunctionType (getType (getFuncExpr FD))) ;;
        if isNoReturn T then ret tt
        else
          (* If the function does not return void, issue the diagnostic. *)
          L <- getLoc UI ;;
          assert (SILLocation.toBool L &&
                  match ResTy with Some _ => true | None => false end) ;;
          diagnose (SILLocation.getEndSourceLoc L) diag.missing_return
                   [TypeArgument (getResultType FD)]
  | None =>
      (* Not all closure types have the result type getter right now. *)
      ret tt
  end.

Definition diagnoseNonExhaustiveSwitch (UI : InstAddr) : Exec unit :=
  L <- getLoc UI ;;
  assert (SILLocation.toBool L) ;;
  diagnose (SILLocation.getEndSourceLoc L) diag.non_exhaustive_switch [].

Definition diagnoseUnreachable (I : InstAddr) : Exec unit :=
  cast <- dyn_cast_UnreachableInst I ;;
  match cast with
  | Some UI =>
      L <- getLoc UI ;;
      (* Invalid location: the instruction was generated by SIL passes. *)
      if negb (SILLocation.hasASTLocation L) then ret tt
      else if SILLocation.isASTNode_AbstractFunctionDecl L then
        diagnoseMissingReturn UI
      else if SILLocation.isASTNode_SwitchStmt L then
        diagnoseNonExhaustiveSwitch UI
      else ret tt
  | None => ret tt
  end.

Definition diagnoseReturn (I : InstAddr) : Exec unit :=
  cast <- dyn_cast_TermInst I ;;
  match cast with
  | None => ret tt
  | Some TI =>
      isBranch <- isa_BranchInst TI ;;
      isReturn <- isa_ReturnInst TI ;;
      if negb (isBranch || isReturn) then ret tt
      else
        let BB := getParent TI in
        let F := getParentFunction BB in
        FLoc <- getLocation F ;;
        match SILLocation.getAsASTNode_FuncDecl FLoc with
        | Some FD =>
            T <- checked (castTo_AnyFunctionType (getType (getFuncExpr FD))) ;;
            (* Warn if we reach a return inside a noreturn function. *)
            if isNoReturn T then
              L <- getLoc TI ;;
              (if SILLocation.is_ReturnLocation L
               then diagnose (SILLocation.getSourceLoc L) diag.return_from_noreturn []
               else ret tt) ;;
              (if SILLocation.is_ImplicitReturnLocation L
               then diagnose (SILLocation.getSourceLoc L) diag.return_from_noreturn []
               else ret tt)
            else ret tt
        | None => ret tt
        end
  end.

(** The ranges of the three loops: the pointers to the functions of the
    module, to the blocks of a function, to the instructions of a block,
    as the store holds them when the loop starts. *)
Definition functionsOf : Exec (list FunctionAddr) :=
  fun W => (Finished (seq 0 (List.length (functions (IR W)))), W).

Definition blocksOf (F : FunctionAddr) : Exec (list BlockAddr) :=
  Fn <- load (functionAt F) ;;
  ret (map (fun b => {| ownerFunction := F; blockIndex := b |})
           (seq 0 (List.length (BlockList Fn)))).

Definition instructionsOf (B : BlockAddr) : Exec (list InstAddr) :=
  BB <- load (blockAt B) ;;
  ret (map (fun i => {| ownerBlock := B; instIndex := i |})
           (seq 0 (List.length (InstList BB)))).

(** The module [M] of the source is the module of the store, and
    [M->getASTContext()] its context. *)
Definition emitSILDataflowDiagnostics : Exec unit :=
  Fns <- functionsOf ;;
  forEach Fns (fun Fn =>
    BBs <- blocksOf Fn ;;
    forEach BBs (fun BB =>
      Is <- instructionsOf BB ;;
      forEach Is (fun I =>
        diagnoseUnreachable I ;;
        diagnoseReturn I))).

End Store.

(** How a run of the pass on values ends, read as the end of a run on the
    store. *)
Definition ofOutcome {A} (o : Outcome A) : Store.Status A :=
  match o with
  | Done a => Store.Finished a
  | AssertionFailed => Store.Stopped
  end.

(** The instruction behind a pointer together with its owners, as the
    classifiers on values take it. *)
Definition snapshot (M : SILModule) (I : Store.InstAddr) : option SILInstructionPtr :=
  match nth_error (functions M) (Store.ownerFunction (Store.ownerBlock I)) with
  | Some Fn =>
      match nth_error (BlockList Fn) (Store.blockIndex (Store.ownerBlock I)) with
      | Some B =>
          match nth_error (InstList B) (Store.instIndex I) with
          | Some i =>
              Some {| theInst := i;
                      parentBlock := {| theBlock := B; parentFunction := Fn |} |}
          | None => None
          end
      | None => None
      end
  | None => None
  end.

(** A computation on the store that leaves the module as it finds it. *)
Definition PreservesIR {A} (m : Store.Exec A) : Prop :=
  forall W, Store.IR (snd (m W)) = Store.IR W.

(** On the module [M] the computation [m] on the store leaves the module
    as it is, ends as [p] ends, and does to the context what [p] does. *)
Definition Refines (M : SILModule) (m : Store.Exec unit) (p : Pass unit) : Prop :=
  forall C,
    m {| Store.IR := M; Store.Context := C |} =
    (ofOutcome (fst (p C)), {| Store.IR := M; Store.Context := snd (p C) |}).

(** The sample module in a store whose engine already holds a record. *)
Definition sampleWorld : Store.World :=
  {| Store.IR := Sample.module; Store.Context := Sample.busyContext |}.

(* ================================================================== *)
(** ** Laws of the monad *)

Lemma handed_nil (C : ASTContext) : handed C [] = C.
Proof.
  destruct C as [[ds]]. unfold handed. simpl. now rewrite app_nil_r.
Qed.

Lemma handed_handed (C : ASTContext) (xs ys : list Diagnostic) :
  handed (handed C xs) ys = handed C (xs ++ ys).
Proof.
  unfold handed. simpl. now rewrite app_assoc.
Qed.

Lemma bind_ret_r (m : Pass unit) (C : ASTContext) :
  (m ;; ret tt) C = m C.
Proof.
  unfold bind, ret. destruct (m C) as [[[]|] C']; reflexivity.
Qed.

Lemma bind_assoc {A B D} (m : Pass A) (k : A -> Pass B) (h : B -> Pass D)
    (C : ASTContext) :
  bind (bind m k) h C = bind m (fun a => bind (k a) h) C.
Proof.
  unfold bind. destruct (m C) as [[a|] C']; reflexivity.
Qed.

Lemma bind_ext {A B} (m : Pass A) (k k' : A -> Pass B) (C : ASTContext) :
  (forall a C', k a C' = k' a C') -> bind m k C = bind m k' C.
Proof.
  intros E. unfold bind. destruct (m C) as [[a|] C']; auto.
Qed.

Lemma forEach_ext {A} (body body' : A -> Pass unit) (xs : list A) :
  (forall x C, body x C = body' x C) ->
  forall C, forEach xs body C = forEach xs body' C.
Proof.
  intros E. induction xs as [|x xs IH]; intros C; simpl.
  - reflexivity.
  - unfold bind. rewrite E. destruct (body' x C) as [[u|] C']; auto.
Qed.

Lemma forEach_app {A} (body : A -> Pass unit) (xs ys : list A) (C : ASTContext) :
  forEach (xs ++ ys) body C = (forEach xs body ;; forEach ys body) C.
Proof.
  revert C. induction xs as [|x xs IH]; intros C; simpl.
  - reflexivity.
  - rewrite bind_assoc. apply bind_ext. intros _ C'. apply IH.
Qed.

(** Nested loops are one loop over the flattened sequence. *)
Lemma forEach_flat_map {A B} (f : A -> list B) (body : B -> Pass unit)
    (xs : list A) (C : ASTContext) :
  forEach xs (fun x => forEach (f x) body) C = forEach (flat_map f xs) body C.
Proof.
  revert C. induction xs as [|x xs IH]; intros C; simpl.
  - reflexivity.
  - rewrite forEach_app. apply bind_ext. intros _ C'. apply IH.
Qed.

Lemma forEach_map {A B} (f : A -> B) (body : B -> Pass unit)
    (xs : list A) (C : ASTContext) :
  forEach (map f xs) body C = forEach xs (fun x => body (f x)) C.
Proof.
  revert C. induction xs as [|x xs IH]; intros C; simpl.
  - reflexivity.
  - apply bind_ext. intros _ C'. apply IH.
Qed.

(* ================================================================== *)
(** ** The engine is never read *)

Lemma WriteOnly_ret {A} (a : A) : WriteOnly (ret a).
Proof. intros C. unfold ret, outcome, log. simpl. now rewrite handed_nil. Qed.

Lemma WriteOnly_assert (b : bool) : WriteOnly (assert b).
Proof. intros C. unfold assert, outcome, log. simpl. now rewrite handed_nil. Qed.

Lemma WriteOnly_checked {A} (o : option A) : WriteOnly (checked o).
Proof. intros C. unfold checked, outcome, log. simpl. now rewrite handed_nil. Qed.

Lemma WriteOnly_diagnose loc id args : WriteOnly (diagnose loc id args).
Proof. intros C. reflexivity. Qed.

Lemma WriteOnly_bind {A B} (m : Pass A) (k : A -> Pass B) :
  WriteOnly m -> (forall a, WriteOnly (k a)) -> WriteOnly (bind m k).
Proof.
  intros Hm Hk C.
  unfold outcome, log, bind.
  rewrite (Hm C), (Hm emptyContext).
  destruct (outcome m) as [a|].
  - rewrite (Hk a (handed C (log m))), (Hk a (handed emptyContext (log m))).
    simpl. now rewrite handed_handed.
  - reflexivity.
Qed.

Lemma WriteOnly_forEach {A} (body : A -> Pass unit) (xs : list A) :
  (forall x, WriteOnly (body x)) -> WriteOnly (forEach xs body).
Proof.
  intros Hb. induction xs as [|x xs IH]; simpl.
  - apply WriteOnly_ret.
  - apply WriteOnly_bind; auto.
Qed.

Create HintDb write_only.
#[local] Hint Resolve WriteOnly_ret WriteOnly_assert WriteOnly_checked
  WriteOnly_diagnose WriteOnly_bind WriteOnly_forEach : write_only.

(** Splits a [WriteOnly] goal along the branches of the code. *)
Ltac write_only :=
  cbv zeta;
  repeat match goal with
         | |- WriteOnly (match ?x with _ => _ end) => destruct x
         | |- WriteOnly (bind _ _) => apply WriteOnly_bind; [|intros ?]
         | |- WriteOnly _ => solve [auto with write_only]
         end.

Lemma WriteOnly_diagnoseMissingReturn UI : WriteOnly (diagnoseMissingReturn UI).
Proof. unfold diagnoseMissingReturn. write_only. Qed.

Lemma WriteOnly_diagnoseNonExhaustiveSwitch UI :
  WriteOnly (diagnoseNonExhaustiveSwitch UI).
Proof. unfold diagnoseNonExhaustiveSwitch. write_only. Qed.

Lemma WriteOnly_diagnoseUnreachable I : WriteOnly (diagnoseUnreachable I).
Proof.
  unfold diagnoseUnreachable.
  pose proof WriteOnly_diagnoseMissingReturn.
  pose proof WriteOnly_diagnoseNonExhaustiveSwitch.
  write_only.
Qed.

Lemma WriteOnly_diagnoseReturn I : WriteOnly (diagnoseReturn I).
Proof. unfold diagnoseReturn. write_only. Qed.

Lemma WriteOnly_visitInstruction I : WriteOnly (visitInstruction I).
Proof.
  unfold visitInstruction.
  apply WriteOnly_bind; intros;
    [apply WriteOnly_diagnoseUnreachable | apply WriteOnly_diagnoseReturn].
Qed.

Lemma WriteOnly_emitSILDataflowDiagnostics M :
  WriteOnly (emitSILDataflowDiagnostics M).
Proof.
  unfold emitSILDataflowDiagnostics.
  repeat (apply WriteOnly_forEach; intros ?).
  apply WriteOnly_visitInstruction.
Qed.

(* ================================================================== *)
(** ** Facts about locations *)

Lemma hasASTLocation_toBool L :
  SILLocation.hasASTLocation L = true -> SILLocation.toBool L = true.
Proof.
  unfold SILLocation.hasASTLocation, SILLocation.toBool, SILLocation.isNull.
  destruct (SILLocation.ASTNode L); [reflexivity | discriminate].
Qed.

Lemma isASTNode_AbstractFunctionDecl_hasASTLocation L :
  SILLocation.isASTNode_AbstractFunctionDecl L = true ->
  SILLocation.hasASTLocation L = true.
Proof.
  unfold SILLocation.isASTNode_AbstractFunctionDecl, SILLocation.hasASTLocation.
  destruct (SILLocation.ASTNode L); [reflexivity | discriminate].
Qed.

(** A location has one AST node: a switch statement is not a function
    declaration. *)
Lemma isASTNode_SwitchStmt_not_function L :
  SILLocation.isASTNode_SwitchStmt L = true ->
  SILLocation.isASTNode_AbstractFunctionDecl L = false.
Proof.
  unfold SILLocation.isASTNode_SwitchStmt, SILLocation.isASTNode_AbstractFunctionDecl.
  destruct (SILLocation.ASTNode L) as [[| | |]|]; try reflexivity; discriminate.
Qed.

(** A location has one kind: it is not both an explicit and an implicit
    return. *)
Lemma is_ReturnLocation_not_implicit L :
  SILLocation.is_ReturnLocation L = true ->
  SILLocation.is_ImplicitReturnLocation L = false.
Proof.
  unfold SILLocation.is_ReturnLocation, SILLocation.is_ImplicitReturnLocation.
  destruct (SILLocation.Kind L); try reflexivity; discriminate.
Qed.

(* ================================================================== *)
(** ** The return classifier on instructions it does not look at *)

Lemma diagnoseReturn_Unreachable I C :
  Inst.kind I = UnreachableInstKind -> diagnoseReturn I C = (Done tt, C).
Proof.
  intros K. unfold diagnoseReturn, dyn_cast_TermInst. rewrite K.
  unfold isa_BranchInst, isa_ReturnInst. rewrite K. reflexivity.
Qed.

Lemma diagnoseUnreachable_other I C :
  Inst.kind I <> UnreachableInstKind -> diagnoseUnreachable I C = (Done tt, C).
Proof.
  intros K. unfold diagnoseUnreachable, dyn_cast_UnreachableInst.
  destruct (Inst.kind I); try reflexivity. now elim K.
Qed.

(** After an unreachable instruction only the first classifier counts. *)
Lemma visitInstruction_Unreachable I C :
  Inst.kind I = UnreachableInstKind ->
  visitInstruction I C = diagnoseUnreachable I C.
Proof.
  intros K. unfold visitInstruction, bind.
  destruct (diagnoseUnreachable I C) as [[[]|] C']; [|reflexivity].
  now apply diagnoseReturn_Unreachable.
Qed.

Lemma visitInstruction_other I C :
  Inst.kind I <> UnreachableInstKind ->
  visitInstruction I C = diagnoseReturn I C.
Proof.
  intros K. unfold visitInstruction, bind.
  now rewrite (diagnoseUnreachable_other I C K).
Qed.

(* ================================================================== *)
(** ** The unreachable classifier *)

(** C1.  An unreachable instruction whose location is a function
    declaration, in a function whose own declaration resolves to a
    [FuncDecl] with a result type other than the empty tuple and a function
    type that is not [noreturn]: the visit of the instruction hands exactly
    one record to the engine, [missing_return] with the declared result
    type, at the end position of the instruction's location. *)
Theorem missing_return_diagnosed
    (I : SILInstructionPtr) (FD : FuncDecl) (T : AnyFunctionType)
    (C : ASTContext) :
  Inst.kind I = UnreachableInstKind ->
  SILLocation.hasASTLocation (Inst.getLoc I) = true ->
  SILLocation.isASTNode_AbstractFunctionDecl (Inst.getLoc I) = true ->
  SILLocation.getAsASTNode_FuncDecl (Fn.getLocation (enclosingFunction I)) = Some FD ->
  isVoid (getResultType FD) = false ->
  castTo_AnyFunctionType (getType (getFuncExpr FD)) = Some T ->
  isNoReturn T = false ->
  visitInstruction I C =
    (Done tt,
     handed C [mkDiag (SILLocation.EndLoc (Inst.getLoc I)) diag.missing_return
                      [TypeArgument (getResultType FD)]]).
Proof.
  intros K HL HF HFD HV HT HN.
  rewrite (visitInstruction_Unreachable I C K).
  unfold diagnoseUnreachable, dyn_cast_UnreachableInst. rewrite K. cbv zeta.
  rewrite HL, HF. simpl.
  unfold diagnoseMissingReturn. cbv zeta.
  fold (enclosingFunction I). rewrite HFD, HV.
  unfold bind, checked. rewrite HT, HN.
  unfold assert. rewrite (hasASTLocation_toBool _ HL). reflexivity.
Qed.

(** C4.  An unreachable instruction whose location is a switch statement:
    the visit hands exactly one record to the engine,
    [non_exhaustive_switch] at the end position of that location, whatever
    the enclosing function is. *)
Theorem non_exhaustive_switch_diagnosed (I : SILInstructionPtr) (C : ASTContext) :
  Inst.kind I = UnreachableInstKind ->
  SILLocation.hasASTLocation (Inst.getLoc I) = true ->
  SILLocation.isASTNode_SwitchStmt (Inst.getLoc I) = true ->
  visitInstruction I C =
    (Done tt,
     handed C [mkDiag (SILLocation.EndLoc (Inst.getLoc I))
                      diag.non_exhaustive_switch []]).
Proof.
  intros K HL HS.
  rewrite (visitInstruction_Unreachable I C K).
  unfold diagnoseUnreachable, dyn_cast_UnreachableInst. rewrite K. cbv zeta.
  rewrite HL, (isASTNode_SwitchStmt_not_function _ HS), HS. simpl.
  unfold diagnoseNonExhaustiveSwitch, bind, assert. cbv zeta.
  rewrite (hasASTLocation_toBool _ HL). reflexivity.
Qed.

(** C5.  An unreachable instruction without an AST location: the visit
    ends normally and the engine receives nothing. *)
Theorem absent_location_is_skipped (I : SILInstructionPtr) (C : ASTContext) :
  Inst.kind I = UnreachableInstKind ->
  SILLocation.hasASTLocation (Inst.getLoc I) = false ->
  visitInstruction I C = (Done tt, C).
Proof.
  intros K HL.
  rewrite (visitInstruction_Unreachable I C K).
  unfold diagnoseUnreachable, dyn_cast_UnreachableInst. rewrite K. cbv zeta.
  rewrite HL. reflexivity.
Qed.

(* ================================================================== *)
(** ** Logs of composed computations *)

Lemma log_ext {A} (m m' : Pass A) :
  (forall C, m C = m' C) -> outcome m = outcome m' /\ log m = log m'.
Proof.
  intros E. unfold outcome, log. rewrite E. split; reflexivity.
Qed.

Lemma log_unchanged {A} (m : Pass A) (o : Outcome A) :
  (forall C, m C = (o, C)) -> outcome m = o /\ log m = [].
Proof.
  intros E. unfold outcome, log. rewrite E. split; reflexivity.
Qed.

Lemma log_bind {A B} (m : Pass A) (k : A -> Pass B) :
  WriteOnly m -> (forall a, WriteOnly (k a)) ->
  log (bind m k) =
    log m ++ match outcome m with
             | Done a => log (k a)
             | AssertionFailed => []
             end.
Proof.
  intros Hm Hk. unfold log at 1, bind. rewrite (Hm emptyContext).
  destruct (outcome m) as [a|].
  - rewrite (Hk a). reflexivity.
  - simpl. now rewrite app_nil_r.
Qed.

Lemma outcome_bind {A B} (m : Pass A) (k : A -> Pass B) :
  WriteOnly m -> (forall a, WriteOnly (k a)) ->
  outcome (bind m k) =
    match outcome m with
    | Done a => outcome (k a)
    | AssertionFailed => AssertionFailed
    end.
Proof.
  intros Hm Hk. unfold outcome at 1, bind. rewrite (Hm emptyContext).
  destruct (outcome m) as [a|].
  - rewrite (Hk a). reflexivity.
  - reflexivity.
Qed.

(** A property of every record of every iteration holds of every record
    of the loop. *)
Lemma forEach_log_Forall {A} (P : Diagnostic -> Prop)
    (body : A -> Pass unit) (xs : list A) :
  (forall x, WriteOnly (body x)) ->
  (forall x, In x xs -> Forall P (log (body x))) ->
  Forall P (log (forEach xs body)).
Proof.
  intros Hw. induction xs as [|x xs IH]; intros HP; simpl.
  - constructor.
  - rewrite log_bind by auto using WriteOnly_forEach.
    apply Forall_app. split.
    + apply HP. now left.
    + destruct (outcome (body x)); [|constructor].
      apply IH. intros y Hy. apply HP. now right.
Qed.

(** A loop whose iterations all end normally ends normally. *)
Lemma forEach_outcome_Done {A} (body : A -> Pass unit) (xs : list A) :
  (forall x, WriteOnly (body x)) ->
  (forall x, In x xs -> outcome (body x) = Done tt) ->
  outcome (forEach xs body) = Done tt.
Proof.
  intros Hw. induction xs as [|x xs IH]; intros HD; simpl.
  - reflexivity.
  - rewrite outcome_bind by auto using WriteOnly_forEach.
    rewrite (HD x) by now left.
    apply IH. intros y Hy. apply HD. now right.
Qed.

(** The traversal as one loop over the instructions of the module. *)
Lemma emitSILDataflowDiagnostics_flat M C :
  emitSILDataflowDiagnostics M C =
  forEach (instructionsOfModule M) visitInstruction C.
Proof.
  unfold emitSILDataflowDiagnostics, instructionsOfModule.
  rewrite <- forEach_flat_map.
  apply forEach_ext. intros Fn C'. unfold instructionsOf.
  rewrite <- forEach_flat_map.
  apply forEach_ext. intros B C''.
  now rewrite forEach_map.
Qed.

Lemma instructionsOf_enclosingFunction Fn I :
  In I (instructionsOf Fn) -> enclosingFunction I = Fn.
Proof.
  unfold instructionsOf. rewrite in_flat_map.
  intros (B & _ & HI). apply in_map_iff in HI as (i & <- & _). reflexivity.
Qed.

(* ================================================================== *)
(** ** What each classifier can hand to the engine *)

(** Unfolds the accessors of the object graph, in the goal and in the
    hypotheses, so that both speak of the same projections. *)
Ltac unfold_accessors :=
  unfold enclosingFunction, BB.getParent, Inst.getParent, Fn.getLocation,
    Inst.getLoc, Inst.kind in *.

(** Unfolds the classifiers down to the primitives of the monad. *)
Ltac unfold_pass :=
  unfold visitInstruction, diagnoseUnreachable, diagnoseReturn,
    diagnoseMissingReturn, diagnoseNonExhaustiveSwitch,
    dyn_cast_UnreachableInst, dyn_cast_TermInst, isa_BranchInst,
    isa_ReturnInst, bind, ret, assert, checked, diagnose,
    DiagnosticEngine_diagnose;
  cbv zeta; unfold_accessors; simpl in *.

(** Opens an instruction pointer into the instruction and its owners. *)
Ltac open_inst I :=
  let k := fresh "k" in
  let L := fresh "L" in
  let B := fresh "B" in
  let F := fresh "F" in
  destruct I as [[k L] [B F]].

(** Case analysis on every test the unfolded code makes, innermost
    first. *)
Ltac split_branches :=
  repeat match goal with
         | |- context [match ?x with _ => _ end] =>
             lazymatch x with
             | context [match _ with _ => _ end] => fail
             | _ => destruct x eqn:?; simpl
             end
         end.

Lemma diagnoseReturn_other_kind I C :
  Inst.kind I <> BranchInstKind -> Inst.kind I <> ReturnInstKind ->
  diagnoseReturn I C = (Done tt, C).
Proof.
  intros HB HR. open_inst I. unfold_pass.
  destruct k; simpl; try reflexivity; congruence.
Qed.

Lemma diagnoseReturn_unresolved I C :
  SILLocation.getAsASTNode_FuncDecl (Fn.getLocation (enclosingFunction I)) = None ->
  diagnoseReturn I C = (Done tt, C).
Proof.
  intros HF. open_inst I. unfold_pass.
  destruct k; simpl; try rewrite HF; reflexivity.
Qed.

(** Without a return tag on the location the return classifier hands
    nothing to the engine. *)
Lemma diagnoseReturn_untagged I :
  SILLocation.is_ReturnLocation (Inst.getLoc I) = false ->
  SILLocation.is_ImplicitReturnLocation (Inst.getLoc I) = false ->
  forall C, snd (diagnoseReturn I C) = C.
Proof.
  intros HR HI C. open_inst I. unfold_pass.
  destruct k; simpl; try rewrite HR, HI; split_branches; reflexivity.
Qed.

Lemma diagnoseReturn_log I :
  Forall (fun d => diagID d = diag.return_from_noreturn) (log (diagnoseReturn I)).
Proof.
  unfold log. open_inst I. unfold_pass.
  split_branches; repeat constructor.
Qed.

Lemma diagnoseUnreachable_log I :
  Forall (fun d => diagID d = diag.missing_return \/
                   diagID d = diag.non_exhaustive_switch)
         (log (diagnoseUnreachable I)).
Proof.
  unfold log. open_inst I. unfold_pass.
  split_branches; repeat (apply Forall_cons || apply Forall_nil); simpl; auto.
Qed.

Lemma visitInstruction_log_Unreachable I :
  Inst.kind I = UnreachableInstKind ->
  outcome (visitInstruction I) = outcome (diagnoseUnreachable I) /\
  log (visitInstruction I) = log (diagnoseUnreachable I).
Proof.
  intros K. apply log_ext. intros C. now apply visitInstruction_Unreachable.
Qed.

Lemma visitInstruction_log_other I :
  Inst.kind I <> UnreachableInstKind ->
  outcome (visitInstruction I) = outcome (diagnoseReturn I) /\
  log (visitInstruction I) = log (diagnoseReturn I).
Proof.
  intros K. apply log_ext. intros C. now apply visitInstruction_other.
Qed.

(** The missing-return path of the unreachable classifier. *)
Lemma diagnoseUnreachable_function_decl I C :
  Inst.kind I = UnreachableInstKind ->
  SILLocation.isASTNode_AbstractFunctionDecl (Inst.getLoc I) = true ->
  diagnoseUnreachable I C = diagnoseMissingReturn I C.
Proof.
  intros K HF.
  unfold diagnoseUnreachable, dyn_cast_UnreachableInst. rewrite K. cbv zeta.
  now rewrite (isASTNode_AbstractFunctionDecl_hasASTLocation _ HF), HF.
Qed.

Lemma diagnoseMissingReturn_unresolved I C :
  SILLocation.getAsASTNode_FuncDecl (Fn.getLocation (enclosingFunction I)) = None ->
  diagnoseMissingReturn I C = (Done tt, C).
Proof.
  intros HF. open_inst I. unfold_pass. now rewrite HF.
Qed.

Lemma diagnoseMissingReturn_void I FD C :
  SILLocation.getAsASTNode_FuncDecl (Fn.getLocation (enclosingFunction I)) = Some FD ->
  isVoid (getResultType FD) = true ->
  diagnoseMissingReturn I C = (Done tt, C).
Proof.
  intros HF HV. open_inst I. unfold_pass. now rewrite HF, HV.
Qed.

Lemma diagnoseMissingReturn_noreturn I FD T C :
  SILLocation.getAsASTNode_FuncDecl (Fn.getLocation (enclosingFunction I)) = Some FD ->
  castTo_AnyFunctionType (getType (getFuncExpr FD)) = Some T ->
  isNoReturn T = true ->
  diagnoseMissingReturn I C = (Done tt, C).
Proof.
  intros HF HT HN. open_inst I. unfold_pass. rewrite HF, HT, HN.
  destruct (isVoid _); reflexivity.
Qed.

(** Only the missing-return path emits [missing_return]. *)
Lemma diagnoseUnreachable_no_missing_return I :
  (forall C, diagnoseMissingReturn I C = (Done tt, C)) ->
  Forall (fun d => diagID d <> diag.missing_return) (log (diagnoseUnreachable I)).
Proof.
  intros HM. unfold log, diagnoseUnreachable, dyn_cast_UnreachableInst.
  destruct (Inst.kind I); try constructor.
  cbv zeta.
  destruct (negb _); [constructor|].
  destruct (SILLocation.isASTNode_AbstractFunctionDecl _).
  { rewrite HM. constructor. }
  destruct (SILLocation.isASTNode_SwitchStmt _); [|constructor].
  open_inst I. unfold_pass. split_branches; repeat constructor; simpl; discriminate.
Qed.

(* ================================================================== *)
(** ** The return classifier *)

Lemma kind_Unreachable_dec I :
  Inst.kind I = UnreachableInstKind \/ Inst.kind I <> UnreachableInstKind.
Proof.
  destruct (Inst.kind I); [left; reflexivity | right; discriminate ..].
Qed.

Lemma diagnoseReturn_noreturn I FD T C :
  Inst.kind I = BranchInstKind \/ Inst.kind I = ReturnInstKind ->
  SILLocation.getAsASTNode_FuncDecl (Fn.getLocation (enclosingFunction I)) = Some FD ->
  castTo_AnyFunctionType (getType (getFuncExpr FD)) = Some T ->
  isNoReturn T = true ->
  diagnoseReturn I C =
    (Done tt,
     handed C
       (if SILLocation.is_ReturnLocation (Inst.getLoc I) ||
           SILLocation.is_ImplicitReturnLocation (Inst.getLoc I)
        then [mkDiag (SILLocation.StartLoc (Inst.getLoc I))
                     diag.return_from_noreturn []]
        else [])).
Proof.
  intros K HF HT HN. open_inst I. unfold_pass.
  assert (E : forall b, SILLocation.is_ReturnLocation L = b ->
                        SILLocation.is_ImplicitReturnLocation L = true -> b = false).
  { intros [] HR HI; [|reflexivity].
    now rewrite (is_ReturnLocation_not_implicit _ HR) in HI. }
  destruct K as [-> | ->]; simpl; rewrite HF, HT, HN;
    destruct (SILLocation.is_ReturnLocation L) eqn:HR;
    destruct (SILLocation.is_ImplicitReturnLocation L) eqn:HI; simpl;
    try (specialize (E _ eq_refl eq_refl); discriminate);
    unfold handed; simpl; try reflexivity;
    now rewrite app_nil_r; destruct C as [[ds]].
Qed.

(** C2.  A branch or return in a function whose resolved declaration has
    a [noreturn] type: when the location of the instruction is a return
    location or an implicit return location, the visit hands exactly one
    record to the engine, [return_from_noreturn] at the start position of
    that location.  And whatever the instruction and its function are, a
    location of any other kind never yields [return_from_noreturn]. *)
Theorem return_from_noreturn_diagnosed (I : SILInstructionPtr) (C : ASTContext) :
  (forall FD T,
     Inst.kind I = BranchInstKind \/ Inst.kind I = ReturnInstKind ->
     SILLocation.getAsASTNode_FuncDecl
       (Fn.getLocation (enclosingFunction I)) = Some FD ->
     castTo_AnyFunctionType (getType (getFuncExpr FD)) = Some T ->
     isNoReturn T = true ->
     SILLocation.is_ReturnLocation (Inst.getLoc I) = true \/
     SILLocation.is_ImplicitReturnLocation (Inst.getLoc I) = true ->
     visitInstruction I C =
       (Done tt,
        handed C [mkDiag (SILLocation.StartLoc (Inst.getLoc I))
                         diag.return_from_noreturn []]))
  /\
  (SILLocation.is_ReturnLocation (Inst.getLoc I) = false ->
   SILLocation.is_ImplicitReturnLocation (Inst.getLoc I) = false ->
   visitInstruction I C =
     (outcome (visitInstruction I), handed C (log (visitInstruction I))) /\
   Forall (fun d => diagID d <> diag.return_from_noreturn)
          (log (visitInstruction I))).
Proof.
  split.
  - intros FD T K HF HT HN Htag.
    rewrite visitInstruction_other by (destruct K as [K|K]; rewrite K; discriminate).
    rewrite (diagnoseReturn_noreturn I FD T C K HF HT HN).
    destruct Htag as [-> | ->]; [reflexivity | now rewrite orb_true_r].
  - intros HR HI. split; [apply WriteOnly_visitInstruction|].
    destruct (kind_Unreachable_dec I) as [K | K].
    + destruct (visitInstruction_log_Unreachable I K) as [_ ->].
      eapply Forall_impl; [|apply diagnoseUnreachable_log].
      intros d [E | E]; rewrite E; discriminate.
    + destruct (visitInstruction_log_other I K) as [_ ->].
      unfold log.
      rewrite (diagnoseReturn_untagged I HR HI emptyContext). constructor.
Qed.

(* ================================================================== *)
(** ** Suppression of the missing-return diagnostic *)

Lemma not_missing_return_of_return (ds : list Diagnostic) :
  Forall (fun d => diagID d = diag.return_from_noreturn) ds ->
  Forall (fun d => diagID d <> diag.missing_return) ds.
Proof.
  apply Forall_impl. intros d E. rewrite E. discriminate.
Qed.

Lemma visitInstruction_no_missing_return I :
  (forall C, diagnoseMissingReturn I C = (Done tt, C)) ->
  Forall (fun d => diagID d <> diag.missing_return) (log (visitInstruction I)).
Proof.
  intros HM. destruct (kind_Unreachable_dec I) as [K | K].
  - destruct (visitInstruction_log_Unreachable I K) as [_ ->].
    now apply diagnoseUnreachable_no_missing_return.
  - destruct (visitInstruction_log_other I K) as [_ ->].
    apply not_missing_return_of_return, diagnoseReturn_log.
Qed.

(** C3.  In a function whose resolved declaration has the empty tuple as
    result type, or a [noreturn] function type, no visit of an instruction
    hands [missing_return] to the engine; an unreachable instruction whose
    location is a function declaration is visited without any record. *)
Theorem no_missing_return_for_void_or_noreturn
    (I : SILInstructionPtr) (FD : FuncDecl) (C : ASTContext) :
  SILLocation.getAsASTNode_FuncDecl (Fn.getLocation (enclosingFunction I)) = Some FD ->
  (isVoid (getResultType FD) = true \/
   exists T, castTo_AnyFunctionType (getType (getFuncExpr FD)) = Some T /\
             isNoReturn T = true) ->
  visitInstruction I C =
    (outcome (visitInstruction I), handed C (log (visitInstruction I))) /\
  Forall (fun d => diagID d <> diag.missing_return) (log (visitInstruction I)) /\
  (Inst.kind I = UnreachableInstKind ->
   SILLocation.isASTNode_AbstractFunctionDecl (Inst.getLoc I) = true ->
   visitInstruction I C = (Done tt, C)).
Proof.
  intros HF HS.
  assert (HM : forall C', diagnoseMissingReturn I C' = (Done tt, C')).
  { intros C'. destruct HS as [HV | (T & HT & HN)].
    - now apply diagnoseMissingReturn_void with FD.
    - now apply diagnoseMissingReturn_noreturn with FD T. }
  split; [apply WriteOnly_visitInstruction|].
  split; [now apply visitInstruction_no_missing_return|].
  intros K HL.
  now rewrite visitInstruction_Unreachable, diagnoseUnreachable_function_decl.
Qed.

(* ================================================================== *)
(** ** Functions without a resolvable declaration *)

Lemma diagnoseUnreachable_outcome_unresolved I :
  SILLocation.getAsASTNode_FuncDecl (Fn.getLocation (enclosingFunction I)) = None ->
  outcome (diagnoseUnreachable I) = Done tt.
Proof.
  intros HF. unfold outcome, diagnoseUnreachable, dyn_cast_UnreachableInst.
  destruct (Inst.kind I); try reflexivity. cbv zeta.
  destruct (SILLocation.hasASTLocation (Inst.getLoc I)) eqn:HL; [|reflexivity].
  simpl.
  destruct (SILLocation.isASTNode_AbstractFunctionDecl _).
  { now rewrite diagnoseMissingReturn_unresolved. }
  destruct (SILLocation.isASTNode_SwitchStmt _); [|reflexivity].
  unfold diagnoseNonExhaustiveSwitch, bind, assert. cbv zeta.
  now rewrite (hasASTLocation_toBool _ HL).
Qed.

Lemma visitInstruction_unresolved I :
  SILLocation.getAsASTNode_FuncDecl (Fn.getLocation (enclosingFunction I)) = None ->
  outcome (visitInstruction I) = Done tt /\
  Forall (fun d => diagID d <> diag.missing_return /\
                   diagID d <> diag.return_from_noreturn)
         (log (visitInstruction I)).
Proof.
  intros HF.
  assert (HR : forall C, diagnoseReturn I C = (Done tt, C))
    by (intros; now apply diagnoseReturn_unresolved).
  destruct (log_unchanged _ _ HR) as [HRo HRl].
  unfold visitInstruction.
  rewrite outcome_bind, log_bind
    by auto using WriteOnly_diagnoseUnreachable, WriteOnly_diagnoseReturn.
  rewrite (diagnoseUnreachable_outcome_unresolved I HF), HRl, app_nil_r.
  split; [exact HRo|].
  apply Forall_and.
  - apply diagnoseUnreachable_no_missing_return.
    intros C. now apply diagnoseMissingReturn_unresolved.
  - eapply Forall_impl; [|apply diagnoseUnreachable_log].
    intros d [E | E]; rewrite E; discriminate.
Qed.

(** C6.  A function whose location does not resolve to a [FuncDecl]: every
    visit of one of its instructions ends normally, the return classifier
    and the missing-return path hand nothing to the engine, and neither
    [missing_return] nor [return_from_noreturn] is among the records of the
    traversal of the function, which ends normally too. *)
Theorem unresolved_declaration_is_skipped (Fn : SILFunction) (C : ASTContext) :
  SILLocation.getAsASTNode_FuncDecl (Fn.getLocation Fn) = None ->
  (forall I, In I (instructionsOf Fn) ->
     diagnoseReturn I C = (Done tt, C) /\
     (SILLocation.isASTNode_AbstractFunctionDecl (Inst.getLoc I) = true ->
      diagnoseUnreachable I C = (Done tt, C)) /\
     visitInstruction I C = (Done tt, handed C (log (visitInstruction I))) /\
     Forall (fun d => diagID d <> diag.missing_return /\
                      diagID d <> diag.return_from_noreturn)
            (log (visitInstruction I)))
  /\
  forEach (instructionsOf Fn) visitInstruction C =
    (Done tt, handed C (log (forEach (instructionsOf Fn) visitInstruction))) /\
  Forall (fun d => diagID d <> diag.missing_return /\
                   diagID d <> diag.return_from_noreturn)
         (log (forEach (instructionsOf Fn) visitInstruction)).
Proof.
  intros HF.
  assert (HI : forall I, In I (instructionsOf Fn) ->
      SILLocation.getAsASTNode_FuncDecl (Fn.getLocation (enclosingFunction I)) = None).
  { intros I HIn. now rewrite (instructionsOf_enclosingFunction Fn I HIn). }
  split; [|split].
  - intros I HIn. specialize (HI I HIn).
    destruct (visitInstruction_unresolved I HI) as [Ho Hl].
    split; [now apply diagnoseReturn_unresolved|].
    split; [|split; [|exact Hl]].
    + intros HL. destruct (kind_Unreachable_dec I) as [K | K].
      * rewrite diagnoseUnreachable_function_decl by assumption.
        now apply diagnoseMissingReturn_unresolved.
      * now apply diagnoseUnreachable_other.
    + rewrite <- Ho. apply WriteOnly_visitInstruction.
  - rewrite <- (forEach_outcome_Done visitInstruction (instructionsOf Fn)).
    + apply WriteOnly_forEach, WriteOnly_visitInstruction.
    + apply WriteOnly_visitInstruction.
    + intros I HIn. now apply visitInstruction_unresolved, HI.
  - apply forEach_log_Forall; [apply WriteOnly_visitInstruction|].
    intros I HIn. now apply visitInstruction_unresolved, HI.
Qed.

(* ================================================================== *)
(** ** One class of diagnostics per kind of instruction *)

(** C9.  What a visit hands to the engine depends on the kind of the
    instruction: only [missing_return] or [non_exhaustive_switch] for an
    unreachable instruction, only [return_from_noreturn] for a branch or a
    return, nothing for any other instruction. *)
Theorem diagnostics_follow_instruction_kind (I : SILInstructionPtr) (C : ASTContext) :
  visitInstruction I C =
    (outcome (visitInstruction I), handed C (log (visitInstruction I))) /\
  match Inst.kind I with
  | UnreachableInstKind =>
      Forall (fun d => diagID d = diag.missing_return \/
                       diagID d = diag.non_exhaustive_switch)
             (log (visitInstruction I))
  | BranchInstKind | ReturnInstKind =>
      Forall (fun d => diagID d = diag.return_from_noreturn)
             (log (visitInstruction I))
  | OtherTermInstKind | NonTermInstKind =>
      log (visitInstruction I) = []
  end.
Proof.
  split; [apply WriteOnly_visitInstruction|].
  destruct (Inst.kind I) eqn:K.
  - destruct (visitInstruction_log_Unreachable I K) as [_ ->].
    apply diagnoseUnreachable_log.
  - destruct (visitInstruction_log_other I) as [_ ->]; [congruence|].
    apply diagnoseReturn_log.
  - destruct (visitInstruction_log_other I) as [_ ->]; [congruence|].
    apply diagnoseReturn_log.
  - destruct (visitInstruction_log_other I) as [_ ->]; [congruence|].
    apply (log_unchanged (diagnoseReturn I) (Done tt)).
    intros C'. apply diagnoseReturn_other_kind; congruence.
  - destruct (visitInstruction_log_other I) as [_ ->]; [congruence|].
    apply (log_unchanged (diagnoseReturn I) (Done tt)).
    intros C'. apply diagnoseReturn_other_kind; congruence.
Qed.

(* ================================================================== *)
(** ** Whose declaration decides *)

(** C10.  An unreachable instruction whose location is some function
    declaration [D] is dispatched to the missing-return path on that
    ground alone; from there on [D] plays no part: the classifier ends, and
    reports, as [missingReturnDecision] says from the location of the
    enclosing function and the end position of the instruction.  Without a
    [FuncDecl] behind the enclosing function nothing is reported. *)
Theorem missing_return_follows_enclosing_function
    (I : SILInstructionPtr) (D : Decl) (C : ASTContext) :
  Inst.kind I = UnreachableInstKind ->
  SILLocation.ASTNode (Inst.getLoc I) = Some (SILLocation.DeclPtr D) ->
  isa_AbstractFunctionDecl D = true ->
  let decision :=
    missingReturnDecision (Fn.getLocation (enclosingFunction I))
                          (SILLocation.EndLoc (Inst.getLoc I)) in
  visitInstruction I C = (fst decision, handed C (snd decision)) /\
  (SILLocation.getAsASTNode_FuncDecl
     (Fn.getLocation (enclosingFunction I)) = None ->
   visitInstruction I C = (Done tt, C)).
Proof.
  intros K HD HA decision.
  assert (HL : SILLocation.isASTNode_AbstractFunctionDecl (Inst.getLoc I) = true).
  { unfold SILLocation.isASTNode_AbstractFunctionDecl. now rewrite HD. }
  assert (HB : SILLocation.toBool (Inst.getLoc I) = true).
  { now apply hasASTLocation_toBool, isASTNode_AbstractFunctionDecl_hasASTLocation. }
  rewrite visitInstruction_Unreachable, diagnoseUnreachable_function_decl
    by assumption.
  split.
  - subst decision. unfold missingReturnDecision, diagnoseMissingReturn.
    cbv zeta. fold (enclosingFunction I).
    destruct (SILLocation.getAsASTNode_FuncDecl _) as [FD|];
      [|now rewrite handed_nil].
    destruct (isVoid _); [now rewrite handed_nil|].
    unfold bind, checked.
    destruct (castTo_AnyFunctionType _) as [T|]; [|now rewrite handed_nil].
    destruct (isNoReturn T); [now rewrite handed_nil|].
    unfold assert. rewrite HB. reflexivity.
  - intros HF. now apply diagnoseMissingReturn_unresolved.
Qed.

(* ================================================================== *)
(** ** The traversal *)

(** With function types behind all resolved declarations no cast of the
    pass fails. *)
Lemma visitInstruction_completes I :
  wellTypedFunction (enclosingFunction I) = true ->
  outcome (visitInstruction I) = Done tt.
Proof.
  unfold wellTypedFunction, outcome. open_inst I. unfold_pass.
  destruct k; simpl;
    (destruct (SILLocation.hasASTLocation L) eqn:HL;
       [try rewrite (hasASTLocation_toBool _ HL) | ]);
    split_branches; intros; try reflexivity; discriminate.
Qed.

Lemma instructionsOfModule_wellTyped M I :
  wellTypedModule M = true -> In I (instructionsOfModule M) ->
  wellTypedFunction (enclosingFunction I) = true.
Proof.
  unfold wellTypedModule, instructionsOfModule.
  rewrite forallb_forall, in_flat_map.
  intros HW (Fn & HFn & HI).
  rewrite (instructionsOf_enclosingFunction Fn I HI). now apply HW.
Qed.

(** The traversal as the sequence of its classifier calls. *)
Lemma emitSILDataflowDiagnostics_calls M C :
  emitSILDataflowDiagnostics M C =
  forEach (classifierCalls M) (fun call => call) C.
Proof.
  rewrite emitSILDataflowDiagnostics_flat. unfold classifierCalls.
  rewrite <- forEach_flat_map.
  apply forEach_ext. intros I C'. simpl.
  unfold visitInstruction. apply bind_ext. intros _ C''.
  now rewrite bind_ret_r.
Qed.

Lemma WriteOnly_classifierCalls M call :
  In call (classifierCalls M) -> WriteOnly call.
Proof.
  unfold classifierCalls. rewrite in_flat_map.
  intros (I & _ & [<- | [<- | []]]).
  - apply WriteOnly_diagnoseUnreachable.
  - apply WriteOnly_diagnoseReturn.
Qed.

(** The records of a loop are those of its iterations, in order, up to
    the iteration that stops at an assertion. *)
Lemma forEach_log_prefix {A} (body : A -> Pass unit) (xs : list A) :
  (forall x, In x xs -> WriteOnly (body x)) ->
  WriteOnly (forEach xs body) /\
  exists n,
    n <= List.length xs /\
    log (forEach xs body) = flat_map (fun x => log (body x)) (firstn n xs) /\
    (outcome (forEach xs body) = Done tt -> n = List.length xs).
Proof.
  induction xs as [|x xs IH]; intros Hw; simpl.
  - split; [apply WriteOnly_ret|]. exists 0. auto.
  - destruct IH as (Hxs & n & Hn & Hlog & Hall).
    { intros y Hy. apply Hw. now right. }
    assert (Hx : WriteOnly (body x)) by (apply Hw; now left).
    split; [now apply WriteOnly_bind|].
    rewrite log_bind, outcome_bind by auto.
    destruct (outcome (body x)) as [u|].
    + exists (S n). simpl. split; [lia | split].
      * now rewrite Hlog.
      * intros HD. now rewrite (Hall HD).
    + exists 1. simpl. split; [lia | split].
      * reflexivity.
      * discriminate.
Qed.

(** C7.  The pass is the sequence of its classifier calls taken function
    by function, block by block, instruction by instruction, the
    unreachable classifier before the return classifier on each
    instruction; the engine receives the records of these calls in that
    order, those of all calls when the run ends normally, which it does
    for a module with function types behind its declarations. *)
Theorem diagnostics_in_declaration_order (M : SILModule) :
  (forall C, emitSILDataflowDiagnostics M C =
             forEach (classifierCalls M) (fun call => call) C) /\
  exists n,
    n <= List.length (classifierCalls M) /\
    (forall C, snd (emitSILDataflowDiagnostics M C) =
               handed C (flat_map (fun call => log call)
                                  (firstn n (classifierCalls M)))) /\
    (forall C, fst (emitSILDataflowDiagnostics M C) = Done tt ->
               n = List.length (classifierCalls M)) /\
    (wellTypedModule M = true ->
     n = List.length (classifierCalls M) /\
     forall C, fst (emitSILDataflowDiagnostics M C) = Done tt).
Proof.
  split; [apply emitSILDataflowDiagnostics_calls|].
  destruct (forEach_log_prefix (fun call => call) (classifierCalls M))
    as (Hw & n & Hn & Hlog & Hall).
  { intros call. apply WriteOnly_classifierCalls. }
  destruct (log_ext _ _ (emitSILDataflowDiagnostics_calls M)) as [Eo El].
  rewrite <- Eo in Hall. rewrite <- El in Hlog.
  pose proof (WriteOnly_emitSILDataflowDiagnostics M) as HM.
  exists n. split; [exact Hn|]. split; [|split].
  - intros C. rewrite (HM C). simpl. now rewrite Hlog.
  - intros C. rewrite (HM C). simpl. exact Hall.
  - intros HW.
    assert (HD : outcome (emitSILDataflowDiagnostics M) = Done tt).
    { destruct (log_ext _ _ (emitSILDataflowDiagnostics_flat M)) as [-> _].
      apply forEach_outcome_Done; [apply WriteOnly_visitInstruction|].
      intros I HI. apply visitInstruction_completes.
      now apply instructionsOfModule_wellTyped with M. }
    split; [now apply Hall|].
    intros C. rewrite (HM C). exact HD.
Qed.

(** The pass on values only appends to the engine of the context, and
    what it appends and how it ends depend on the module alone, not on what
    the engine holds; a second run over the module appends the same records
    again. *)
Lemma pass_only_appends_diagnostics (M : SILModule) (C : ASTContext) :
  emitSILDataflowDiagnostics M C =
    (outcome (emitSILDataflowDiagnostics M),
     handed C (log (emitSILDataflowDiagnostics M))) /\
  snd (emitSILDataflowDiagnostics M (snd (emitSILDataflowDiagnostics M C))) =
    handed C (log (emitSILDataflowDiagnostics M) ++
              log (emitSILDataflowDiagnostics M)).
Proof.
  pose proof (WriteOnly_emitSILDataflowDiagnostics M) as HM.
  split; [apply HM|].
  rewrite (HM C). simpl. rewrite (HM (handed C _)). simpl.
  apply handed_handed.
Qed.

(* ================================================================== *)
(** ** The theorems at work on the sample module *)

Example sample_module_run :
  emitSILDataflowDiagnostics Sample.module emptyContext =
  (Done tt, handed emptyContext Sample.expected).
Proof. reflexivity. Qed.

(** The unreachable instruction at the end of [f]. *)
Lemma missing_return_diagnosed_witness :
  visitInstruction (Sample.instruction 3) Sample.busyContext =
  (Done tt,
   handed Sample.busyContext
     [mkDiag (SourceLocAt 40) diag.missing_return [TypeArgument Sample.Int]]).
Proof.
  apply (missing_return_diagnosed (Sample.instruction 3) Sample.decl_f
           {| getInput := Sample.Void; getResult := Sample.Int; isNoReturn := false |}
           Sample.busyContext);
    reflexivity.
Defined.

(** The [return] of the [noreturn] function [g], and the branch of its
    loop. *)
Lemma return_from_noreturn_diagnosed_witness :
  visitInstruction (Sample.instruction 6) Sample.busyContext =
    (Done tt,
     handed Sample.busyContext
       [mkDiag (SourceLocAt 90) diag.return_from_noreturn []]) /\
  Forall (fun d => diagID d <> diag.return_from_noreturn)
         (log (visitInstruction (Sample.instruction 4))).
Proof.
  split.
  - apply (proj1 (return_from_noreturn_diagnosed (Sample.instruction 6)
                    Sample.busyContext)
             Sample.decl_g
             {| getInput := Sample.Void; getResult := Sample.Void; isNoReturn := true |});
      [right | | | | left]; reflexivity.
  - apply (proj2 (return_from_noreturn_diagnosed (Sample.instruction 4)
                    Sample.busyContext));
      reflexivity.
Defined.

(** An unreachable instruction with the span of [h], which returns
    nothing, and one with the span of [g], which never returns. *)
Lemma no_missing_return_for_void_or_noreturn_witness :
  visitInstruction
    (Sample.pointer (Sample.inst UnreachableInstKind Sample.span_h) Sample.span_h)
    Sample.busyContext = (Done tt, Sample.busyContext) /\
  visitInstruction
    (Sample.pointer (Sample.inst UnreachableInstKind Sample.span_g) Sample.span_g)
    Sample.busyContext = (Done tt, Sample.busyContext).
Proof.
  split.
  - apply (no_missing_return_for_void_or_noreturn
             (Sample.pointer (Sample.inst UnreachableInstKind Sample.span_h)
                             Sample.span_h)
             Sample.decl_h Sample.busyContext);
      [reflexivity | left; reflexivity | reflexivity | reflexivity].
  - apply (no_missing_return_for_void_or_noreturn
             (Sample.pointer (Sample.inst UnreachableInstKind Sample.span_g)
                             Sample.span_g)
             Sample.decl_g Sample.busyContext);
      [reflexivity
      | right;
        exists {| getInput := Sample.Void; getResult := Sample.Void;
                  isNoReturn := true |};
        split; reflexivity
      | reflexivity | reflexivity].
Defined.

(** The unreachable instruction of the switch of [h]. *)
Lemma non_exhaustive_switch_diagnosed_witness :
  visitInstruction (Sample.instruction 8) Sample.busyContext =
  (Done tt,
   handed Sample.busyContext
     [mkDiag (SourceLocAt 158) diag.non_exhaustive_switch []]).
Proof.
  apply (non_exhaustive_switch_diagnosed (Sample.instruction 8) Sample.busyContext);
    reflexivity.
Defined.

(** The unreachable instruction without location in the closure. *)
Lemma absent_location_is_skipped_witness :
  visitInstruction (Sample.instruction 11) Sample.busyContext =
  (Done tt, Sample.busyContext).
Proof.
  apply (absent_location_is_skipped (Sample.instruction 11) Sample.busyContext);
    reflexivity.
Defined.

(** The closure: an unreachable instruction with the span of [f], one
    without location, and a [return]. *)
Lemma unresolved_declaration_is_skipped_witness :
  forEach (instructionsOf Sample.sil_closure) visitInstruction Sample.busyContext =
    (Done tt,
     handed Sample.busyContext
       (log (forEach (instructionsOf Sample.sil_closure) visitInstruction))) /\
  Forall (fun d => diagID d <> diag.missing_return /\
                   diagID d <> diag.return_from_noreturn)
         (log (forEach (instructionsOf Sample.sil_closure) visitInstruction)).
Proof.
  apply (unresolved_declaration_is_skipped Sample.sil_closure Sample.busyContext).
  reflexivity.
Defined.

(** The whole sample module: every classifier call contributes. *)
Lemma diagnostics_in_declaration_order_witness :
  snd (emitSILDataflowDiagnostics Sample.module Sample.busyContext) =
    handed Sample.busyContext
      (flat_map (fun call => log call) (classifierCalls Sample.module)) /\
  fst (emitSILDataflowDiagnostics Sample.module Sample.busyContext) = Done tt.
Proof.
  destruct (diagnostics_in_declaration_order Sample.module)
    as (_ & n & _ & Hlog & _ & Hall).
  destruct (Hall eq_refl) as [Hn HD].
  split; [|apply HD].
  rewrite (Hlog Sample.busyContext), Hn.
  now rewrite firstn_all.
Defined.

(** An unreachable instruction with the span of [f], which returns [Int],
    in a function lowered from [s], which returns [String]; and the same
    instruction in the closure. *)
Lemma missing_return_follows_enclosing_function_witness :
  visitInstruction
    (Sample.pointer (Sample.inst UnreachableInstKind Sample.span_f) Sample.span_s)
    Sample.busyContext =
    (Done tt,
     handed Sample.busyContext
       [mkDiag (SourceLocAt 40) diag.missing_return [TypeArgument Sample.String]]) /\
  visitInstruction (Sample.instruction 10) Sample.busyContext =
    (Done tt, Sample.busyContext).
Proof.
  split.
  - apply (missing_return_follows_enclosing_function
             (Sample.pointer (Sample.inst UnreachableInstKind Sample.span_f)
                             Sample.span_s)
             (FuncDeclNode Sample.decl_f) Sample.busyContext);
      reflexivity.
  - apply (missing_return_follows_enclosing_function
             (Sample.instruction 10) (FuncDeclNode Sample.decl_f)
             Sample.busyContext);
      reflexivity.
Defined.

(* ================================================================== *)
(** ** Every record is due *)

(** Unfolds the tests on the kind of a location, which exclude each
    other. *)
Ltac unfold_kind_tests :=
  unfold SILLocation.is_ReturnLocation, SILLocation.is_ImplicitReturnLocation in *.

(** Closes a goal about the records of a fully split run: the record at
    hand is one of the at most two that the run lists. *)
Ltac pick_record :=
  let Hin := fresh "Hin" in
  let Hid := fresh "Hid" in
  simpl; intros Hin Hid;
  repeat (destruct Hin as [Hin | Hin]; [subst; try discriminate Hid|]);
  try contradiction.

(** X1.  A [missing_return] record of a visit is due: the instruction is
    unreachable with a function declaration as location, the enclosing
    function resolves to a [FuncDecl] whose result type is not the empty
    tuple and whose function type is not [noreturn], and the record is the
    one with that result type at the end position of the instruction. *)
Theorem missing_return_only_when_due (I : SILInstructionPtr) (d : Diagnostic) :
  In d (log (visitInstruction I)) ->
  diagID d = diag.missing_return ->
  Inst.kind I = UnreachableInstKind /\
  SILLocation.isASTNode_AbstractFunctionDecl (Inst.getLoc I) = true /\
  exists FD T,
    SILLocation.getAsASTNode_FuncDecl
      (Fn.getLocation (enclosingFunction I)) = Some FD /\
    isVoid (getResultType FD) = false /\
    castTo_AnyFunctionType (getType (getFuncExpr FD)) = Some T /\
    isNoReturn T = false /\
    d = mkDiag (SILLocation.EndLoc (Inst.getLoc I)) diag.missing_return
               [TypeArgument (getResultType FD)].
Proof.
  open_inst I. unfold log. unfold_pass.
  split_branches; pick_record.
  split; [reflexivity|]. split; [reflexivity|].
  do 2 eexists. repeat split; eauto.
Qed.

(** X2.  A [non_exhaustive_switch] record of a visit is due: the
    instruction is unreachable with a switch statement as location, and
    the record sits at the end position of that location. *)
Theorem non_exhaustive_switch_only_when_due (I : SILInstructionPtr) (d : Diagnostic) :
  In d (log (visitInstruction I)) ->
  diagID d = diag.non_exhaustive_switch ->
  Inst.kind I = UnreachableInstKind /\
  SILLocation.isASTNode_SwitchStmt (Inst.getLoc I) = true /\
  d = mkDiag (SILLocation.EndLoc (Inst.getLoc I)) diag.non_exhaustive_switch [].
Proof.
  open_inst I. unfold log. unfold_pass.
  split_branches; pick_record.
  repeat split.
Qed.

(** X3.  A [return_from_noreturn] record of a visit is due: the
    instruction is a branch or a return with a return location or an
    implicit return location, the enclosing function resolves to a
    [FuncDecl] with a [noreturn] function type, and the record sits at the
    start position of the location. *)
Theorem return_from_noreturn_only_when_due (I : SILInstructionPtr) (d : Diagnostic) :
  In d (log (visitInstruction I)) ->
  diagID d = diag.return_from_noreturn ->
  (Inst.kind I = BranchInstKind \/ Inst.kind I = ReturnInstKind) /\
  (SILLocation.is_ReturnLocation (Inst.getLoc I) = true \/
   SILLocation.is_ImplicitReturnLocation (Inst.getLoc I) = true) /\
  exists FD T,
    SILLocation.getAsASTNode_FuncDecl
      (Fn.getLocation (enclosingFunction I)) = Some FD /\
    castTo_AnyFunctionType (getType (getFuncExpr FD)) = Some T /\
    isNoReturn T = true /\
    d = mkDiag (SILLocation.StartLoc (Inst.getLoc I)) diag.return_from_noreturn [].
Proof.
  open_inst I. unfold log. unfold_pass.
  split_branches; pick_record;
    (split; [auto|]); (split; [auto|]);
    do 2 eexists; repeat split; eauto.
Qed.

(** X4.  A visit hands at most one record to the engine. *)
Theorem at_most_one_record_per_instruction (I : SILInstructionPtr) :
  List.length (log (visitInstruction I)) <= 1.
Proof.
  open_inst I. unfold log. unfold_pass. unfold_kind_tests.
  split_branches; simpl; lia.
Qed.

(* ================================================================== *)
(** ** When the pass stops at an assertion *)

(** Exposes the AST node behind the tests on a location. *)
Ltac unfold_node_tests :=
  unfold SILLocation.toBool, SILLocation.isNull, SILLocation.hasASTLocation,
    SILLocation.isASTNode_AbstractFunctionDecl, SILLocation.isASTNode_SwitchStmt in *.

(** X5.  A visit stops at an assertion exactly when it reaches the cast of
    a function expression whose type is no function type: on a branch or a
    return, or on an unreachable instruction with a function declaration
    as location once the result type is not the empty tuple.  The
    assertions on the location of the instruction never stop it. *)
Theorem visit_fails_only_on_bad_cast (I : SILInstructionPtr) :
  outcome (visitInstruction I) = AssertionFailed <->
  exists FD,
    SILLocation.getAsASTNode_FuncDecl
      (Fn.getLocation (enclosingFunction I)) = Some FD /\
    castTo_AnyFunctionType (getType (getFuncExpr FD)) = None /\
    ((Inst.kind I = UnreachableInstKind /\
      SILLocation.isASTNode_AbstractFunctionDecl (Inst.getLoc I) = true /\
      isVoid (getResultType FD) = false) \/
     Inst.kind I = BranchInstKind \/
     Inst.kind I = ReturnInstKind).
Proof.
  open_inst I. unfold outcome. unfold_pass. unfold_node_tests.
  split_branches;
    (split;
     [ intros H; try discriminate H; eexists; repeat split; eauto 6
     | intros (FD & H1 & H2 & [(Ha & Hb & Hc) | [Ha | Ha]]);
       try reflexivity; congruence ]).
Qed.

Lemma forEach_outcome_Done_inv {A} (body : A -> Pass unit) (xs : list A) :
  (forall x, WriteOnly (body x)) ->
  outcome (forEach xs body) = Done tt ->
  forall x, In x xs -> outcome (body x) = Done tt.
Proof.
  intros Hw. induction xs as [|x xs IH]; simpl; intros HD y Hy.
  - contradiction.
  - rewrite outcome_bind in HD by auto using WriteOnly_forEach.
    destruct (outcome (body x)) as [[]|] eqn:Hx; [|discriminate].
    destruct Hy as [<- | Hy]; [exact Hx | now apply IH].
Qed.

(** X6.  The pass runs to its end over a module exactly when the visit of
    each of its instructions does. *)
Theorem pass_completes_iff_every_visit_does (M : SILModule) :
  outcome (emitSILDataflowDiagnostics M) = Done tt <->
  forall I, In I (instructionsOfModule M) ->
            outcome (visitInstruction I) = Done tt.
Proof.
  destruct (log_ext _ _ (emitSILDataflowDiagnostics_flat M)) as [-> _].
  split.
  - apply forEach_outcome_Done_inv, WriteOnly_visitInstruction.
  - apply forEach_outcome_Done, WriteOnly_visitInstruction.
Qed.

(* ================================================================== *)
(** ** The two classifiers do not meet *)

(** X7.  On every instruction the two classifiers can be called in either
    order: one of them returns at once, so the run and its records are the
    same. *)
Theorem classifiers_commute (I : SILInstructionPtr) (C : ASTContext) :
  visitInstruction I C = (diagnoseReturn I ;; diagnoseUnreachable I) C.
Proof.
  destruct (kind_Unreachable_dec I) as [K | K].
  - rewrite (visitInstruction_Unreachable I C K).
    unfold bind. now rewrite (diagnoseReturn_Unreachable I C K).
  - rewrite (visitInstruction_other I C K). unfold bind.
    destruct (diagnoseReturn I C) as [[[]|] C']; [|reflexivity].
    now rewrite (diagnoseUnreachable_other I C' K).
Qed.

(* ================================================================== *)
(** ** What a visit reads *)

(** A visit reads the instruction and the location of its function, not
    the block and not the rest of the function. *)
Lemma visitInstruction_reads I I' C :
  theInst I = theInst I' ->
  Location (enclosingFunction I) = Location (enclosingFunction I') ->
  visitInstruction I C = visitInstruction I' C.
Proof.
  destruct I as [i [B [FL Bs]]], I' as [i' [B' [FL' Bs']]].
  unfold enclosingFunction, BB.getParent, Inst.getParent. simpl.
  intros <- <-. destruct i as [k L].
  unfold_pass. destruct k; reflexivity.
Qed.

(** X8.  Of the location of an instruction the unreachable classifier
    reads the AST node and the end position, the return classifier the
    kind and the start position: two instructions of one kind, in functions
    with the same location, that agree on what their classifier reads are
    visited alike. *)
Theorem classifiers_read_disjoint_location_fields
    (I I' : SILInstructionPtr) (C : ASTContext) :
  Inst.kind I = Inst.kind I' ->
  Fn.getLocation (enclosingFunction I) = Fn.getLocation (enclosingFunction I') ->
  match Inst.kind I with
  | UnreachableInstKind =>
      SILLocation.ASTNode (Inst.getLoc I) = SILLocation.ASTNode (Inst.getLoc I') /\
      SILLocation.EndLoc (Inst.getLoc I) = SILLocation.EndLoc (Inst.getLoc I')
  | BranchInstKind | ReturnInstKind =>
      SILLocation.Kind (Inst.getLoc I) = SILLocation.Kind (Inst.getLoc I') /\
      SILLocation.StartLoc (Inst.getLoc I) = SILLocation.StartLoc (Inst.getLoc I')
  | OtherTermInstKind | NonTermInstKind => True
  end ->
  visitInstruction I C = visitInstruction I' C.
Proof.
  destruct I as [[k L] [B [FL Bs]]], I' as [[k' L'] [B' [FL' Bs']]].
  unfold_accessors. simpl. intros <- <-.
  destruct L as [n kd s e], L' as [n' kd' s' e'].
  unfold_pass. unfold_node_tests. unfold_kind_tests.
  unfold SILLocation.getSourceLoc, SILLocation.getEndSourceLoc.
  destruct k; simpl; try reflexivity; intros [<- <-]; reflexivity.
Qed.

(* ================================================================== *)
(** ** Blocks and idle instructions *)

(** The traversal of a function, block boundaries forgotten. *)
Lemma forEach_instructionsOf Fn C :
  forEach (instructionsOf Fn) visitInstruction C =
  forEach (flatInstList Fn)
          (fun i => visitInstruction (standalone (Location Fn) i)) C.
Proof.
  unfold instructionsOf, flatInstList.
  rewrite <- !forEach_flat_map.
  apply forEach_ext. intros B C'.
  rewrite forEach_map.
  apply forEach_ext. intros i C''.
  now apply visitInstruction_reads.
Qed.

(** The traversal of a module, function by function. *)
Lemma emitSILDataflowDiagnostics_by_function M C :
  emitSILDataflowDiagnostics M C =
  forEach (functions M)
          (fun Fn => forEach (instructionsOf Fn) visitInstruction) C.
Proof.
  rewrite emitSILDataflowDiagnostics_flat. unfold instructionsOfModule.
  now rewrite <- forEach_flat_map.
Qed.

Lemma forEach_Forall2 {A B} (R : A -> B -> Prop)
    (body : A -> Pass unit) (body' : B -> Pass unit) xs ys :
  Forall2 R xs ys ->
  (forall x y C, R x y -> body x C = body' y C) ->
  forall C, forEach xs body C = forEach ys body' C.
Proof.
  intros HR Hb. induction HR as [|x y xs ys Hxy _ IH]; intros C; simpl.
  - reflexivity.
  - unfold bind. rewrite (Hb x y C Hxy).
    destruct (body' y C) as [[u|] C']; auto.
Qed.

(** X9.  Block boundaries play no part: two modules whose functions
    agree, one by one, on their location and on the sequence of their
    instructions are treated alike, however the instructions are grouped
    into blocks. *)
Theorem block_boundaries_are_irrelevant (M M' : SILModule) (C : ASTContext) :
  Forall2 sameInstructions (functions M) (functions M') ->
  emitSILDataflowDiagnostics M C = emitSILDataflowDiagnostics M' C.
Proof.
  intros HF. rewrite !emitSILDataflowDiagnostics_by_function.
  revert C. apply forEach_Forall2 with (R := sameInstructions); [exact HF|].
  intros Fn Fn' C [HL HI].
  now rewrite !forEach_instructionsOf, HL, HI.
Qed.

Lemma flatInstList_stripFunction Fn :
  flatInstList (stripFunction Fn) = filter diagnosable (flatInstList Fn).
Proof.
  unfold flatInstList, stripFunction. simpl.
  induction (BlockList Fn) as [|B Bs IH]; simpl.
  - reflexivity.
  - now rewrite filter_app, IH.
Qed.

Lemma visitInstruction_idle I C :
  diagnosable (theInst I) = false -> visitInstruction I C = (Done tt, C).
Proof.
  unfold diagnosable. fold (Inst.kind I). intros HD.
  rewrite visitInstruction_other by (destruct (Inst.kind I); discriminate).
  apply diagnoseReturn_other_kind; destruct (Inst.kind I); discriminate.
Qed.

Lemma forEach_filter {A} (p : A -> bool) (body : A -> Pass unit) (xs : list A) :
  (forall x C, p x = false -> body x C = (Done tt, C)) ->
  forall C, forEach (filter p xs) body C = forEach xs body C.
Proof.
  intros Hidle. induction xs as [|x xs IH]; intros C; simpl.
  - reflexivity.
  - destruct (p x) eqn:Hp; simpl.
    + apply bind_ext. intros _ C'. apply IH.
    + unfold bind. rewrite (Hidle x C Hp). apply IH.
Qed.

(** X10.  Instructions that are neither unreachable nor a branch nor a
    return are idle: the pass treats a module and the module without them
    alike. *)
Theorem idle_instructions_can_be_dropped (M : SILModule) (C : ASTContext) :
  emitSILDataflowDiagnostics (stripModule M) C = emitSILDataflowDiagnostics M C.
Proof.
  rewrite !emitSILDataflowDiagnostics_by_function.
  unfold stripModule. simpl. rewrite forEach_map.
  apply forEach_ext. intros Fn C'.
  rewrite !forEach_instructionsOf, flatInstList_stripFunction. simpl.
  apply forEach_filter. intros i C'' Hi.
  now apply visitInstruction_idle.
Qed.

(* ================================================================== *)
(** ** Modules as sequences of functions *)

(** X11.  Functions are treated one after the other and independently:
    the records for the functions of [M1] followed by those of [M2] are the
    records for [M1] followed, when the run over [M1] reaches its end, by
    the records for [M2]; a run that stops in [M1] never gets to [M2]. *)
Theorem modules_compose (M1 M2 : SILModule) :
  log (emitSILDataflowDiagnostics (joinModules M1 M2)) =
    log (emitSILDataflowDiagnostics M1) ++
    match outcome (emitSILDataflowDiagnostics M1) with
    | Done _ => log (emitSILDataflowDiagnostics M2)
    | AssertionFailed => []
    end
  /\
  outcome (emitSILDataflowDiagnostics (joinModules M1 M2)) =
    match outcome (emitSILDataflowDiagnostics M1) with
    | Done _ => outcome (emitSILDataflowDiagnostics M2)
    | AssertionFailed => AssertionFailed
    end.
Proof.
  assert (E : forall C,
             emitSILDataflowDiagnostics (joinModules M1 M2) C =
             (emitSILDataflowDiagnostics M1 ;; emitSILDataflowDiagnostics M2) C).
  { intros C. unfold emitSILDataflowDiagnostics, joinModules. simpl.
    apply forEach_app. }
  destruct (log_ext _ _ E) as [-> ->].
  rewrite log_bind, outcome_bind
    by auto using WriteOnly_emitSILDataflowDiagnostics.
  split; reflexivity.
Qed.

(* ================================================================== *)
(** ** From visits to the module *)

Lemma forEach_log_In {A} (body : A -> Pass unit) (xs : list A) d :
  (forall x, WriteOnly (body x)) ->
  In d (log (forEach xs body)) ->
  exists x, In x xs /\ In d (log (body x)).
Proof.
  intros Hw. induction xs as [|x xs IH]; simpl.
  - intros [].
  - rewrite log_bind by auto using WriteOnly_forEach.
    rewrite in_app_iff. intros [Hd | Hd].
    + exists x. auto.
    + destruct (outcome (body x)); [|contradiction].
      destruct (IH Hd) as (y & Hy & Hdy). exists y. auto.
Qed.

Lemma forEach_log_In_Done {A} (body : A -> Pass unit) (xs : list A) d x :
  (forall x, WriteOnly (body x)) ->
  outcome (forEach xs body) = Done tt ->
  In x xs -> In d (log (body x)) ->
  In d (log (forEach xs body)).
Proof.
  intros Hw. induction xs as [|y xs IH]; simpl.
  - intros _ [].
  - rewrite outcome_bind, log_bind by auto using WriteOnly_forEach.
    rewrite in_app_iff.
    destruct (outcome (body y)) as [[]|]; [|discriminate].
    intros HD [<- | Hx] Hd; [now left | right; now apply IH].
Qed.

(** X12.  Every record of a run over a module is a record of the visit of
    one of its instructions; and when the run reaches its end, every record
    of every visit is among the records of the run. *)
Theorem records_of_module_are_records_of_visits (M : SILModule) (d : Diagnostic) :
  (In d (log (emitSILDataflowDiagnostics M)) ->
   exists I, In I (instructionsOfModule M) /\ In d (log (visitInstruction I)))
  /\
  (outcome (emitSILDataflowDiagnostics M) = Done tt ->
   forall I, In I (instructionsOfModule M) ->
             In d (log (visitInstruction I)) ->
             In d (log (emitSILDataflowDiagnostics M))).
Proof.
  destruct (log_ext _ _ (emitSILDataflowDiagnostics_flat M)) as [-> ->].
  split.
  - apply forEach_log_In, WriteOnly_visitInstruction.
  - intros HD I HI Hd.
    now apply forEach_log_In_Done with I; [apply WriteOnly_visitInstruction | ..].
Qed.

(* ================================================================== *)
(** ** Invariants of the records *)

Lemma visitInstruction_wellFormedRecord I :
  Forall (fun d => wellFormedRecord d = true) (log (visitInstruction I)).
Proof.
  open_inst I. unfold log. unfold_pass.
  split_branches; repeat (apply Forall_cons || apply Forall_nil);
    unfold wellFormedRecord; simpl; try reflexivity.
  all: match goal with H : isVoid _ = false |- _ => now rewrite H end.
Qed.

(** X13.  Every record of a run over a module carries the arguments of its
    diagnostic: [missing_return] one type, never the empty tuple; the other
    two none. *)
Theorem records_are_well_formed (M : SILModule) :
  Forall (fun d => wellFormedRecord d = true)
         (log (emitSILDataflowDiagnostics M)).
Proof.
  destruct (log_ext _ _ (emitSILDataflowDiagnostics_flat M)) as [_ ->].
  apply forEach_log_Forall; [apply WriteOnly_visitInstruction|].
  intros I _. apply visitInstruction_wellFormedRecord.
Qed.

Lemma visitInstruction_log_bound I :
  List.length (log (visitInstruction I)) <=
  if diagnosable (theInst I) then 1 else 0.
Proof.
  destruct (diagnosable (theInst I)) eqn:HD.
  - open_inst I. unfold log. unfold_pass. unfold_kind_tests.
    split_branches; simpl; lia.
  - destruct (log_unchanged (visitInstruction I) (Done tt)) as [_ ->];
      [|simpl; lia].
    intros C. now apply visitInstruction_idle.
Qed.

Lemma forEach_log_bound {A} (p : A -> bool) (body : A -> Pass unit) (xs : list A) :
  (forall x, WriteOnly (body x)) ->
  (forall x, List.length (log (body x)) <= if p x then 1 else 0) ->
  List.length (log (forEach xs body)) <= List.length (filter p xs).
Proof.
  intros Hw Hb. induction xs as [|x xs IH]; simpl.
  - lia.
  - rewrite log_bind by auto using WriteOnly_forEach.
    rewrite length_app. specialize (Hb x).
    assert (List.length
              match outcome (body x) with
              | Done _ => log (forEach xs body)
              | AssertionFailed => []
              end <= List.length (filter p xs))
      by (destruct (outcome (body x)); simpl; lia).
    destruct (p x); simpl; lia.
Qed.

(** X14.  A run over a module hands the engine at most as many records as
    the module has unreachable, branch and return instructions. *)
Theorem records_bounded_by_terminators (M : SILModule) :
  List.length (log (emitSILDataflowDiagnostics M)) <=
  List.length (filter (fun I => diagnosable (theInst I)) (instructionsOfModule M)).
Proof.
  destruct (log_ext _ _ (emitSILDataflowDiagnostics_flat M)) as [_ ->].
  apply forEach_log_bound.
  - apply WriteOnly_visitInstruction.
  - apply visitInstruction_log_bound.
Qed.

(* ================================================================== *)
(** ** The further theorems at work *)

(** The record of [f] in the sample module. *)
Lemma missing_return_only_when_due_witness :
  Inst.kind (Sample.instruction 3) = UnreachableInstKind /\
  SILLocation.isASTNode_AbstractFunctionDecl
    (Inst.getLoc (Sample.instruction 3)) = true /\
  exists FD T,
    SILLocation.getAsASTNode_FuncDecl
      (Fn.getLocation (enclosingFunction (Sample.instruction 3))) = Some FD /\
    isVoid (getResultType FD) = false /\
    castTo_AnyFunctionType (getType (getFuncExpr FD)) = Some T /\
    isNoReturn T = false /\
    Cases.record_f =
      mkDiag (SILLocation.EndLoc (Inst.getLoc (Sample.instruction 3)))
             diag.missing_return [TypeArgument (getResultType FD)].
Proof.
  apply (missing_return_only_when_due (Sample.instruction 3) Cases.record_f);
    [left|]; reflexivity.
Defined.

(** The record of [h] in the sample module. *)
Lemma non_exhaustive_switch_only_when_due_witness :
  Inst.kind (Sample.instruction 8) = UnreachableInstKind /\
  SILLocation.isASTNode_SwitchStmt (Inst.getLoc (Sample.instruction 8)) = true /\
  Cases.record_h =
    mkDiag (SILLocation.EndLoc (Inst.getLoc (Sample.instruction 8)))
           diag.non_exhaustive_switch [].
Proof.
  apply (non_exhaustive_switch_only_when_due (Sample.instruction 8) Cases.record_h);
    [left|]; reflexivity.
Defined.

(** The record of [g] in the sample module. *)
Lemma return_from_noreturn_only_when_due_witness :
  (Inst.kind (Sample.instruction 6) = BranchInstKind \/
   Inst.kind (Sample.instruction 6) = ReturnInstKind) /\
  (SILLocation.is_ReturnLocation (Inst.getLoc (Sample.instruction 6)) = true \/
   SILLocation.is_ImplicitReturnLocation (Inst.getLoc (Sample.instruction 6)) = true) /\
  exists FD T,
    SILLocation.getAsASTNode_FuncDecl
      (Fn.getLocation (enclosingFunction (Sample.instruction 6))) = Some FD /\
    castTo_AnyFunctionType (getType (getFuncExpr FD)) = Some T /\
    isNoReturn T = true /\
    Cases.record_g =
      mkDiag (SILLocation.StartLoc (Inst.getLoc (Sample.instruction 6)))
             diag.return_from_noreturn [].
Proof.
  apply (return_from_noreturn_only_when_due (Sample.instruction 6) Cases.record_g);
    [left|]; reflexivity.
Defined.

(** An unreachable instruction in a function whose function expression
    has no function type. *)
Lemma visit_fails_only_on_bad_cast_witness :
  outcome (visitInstruction
             (Sample.pointer (Sample.inst UnreachableInstKind Cases.span_bad)
                             Cases.span_bad)) = AssertionFailed.
Proof.
  apply (proj2 (visit_fails_only_on_bad_cast
                  (Sample.pointer (Sample.inst UnreachableInstKind Cases.span_bad)
                                  Cases.span_bad))).
  exists Cases.decl_bad.
  split; [reflexivity|]. split; [reflexivity|].
  left. repeat split.
Defined.

(** The kind and the start position of the location of an unreachable
    instruction are not read. *)
Lemma classifiers_read_disjoint_location_fields_witness :
  visitInstruction Cases.unreachable_f Sample.busyContext =
  visitInstruction Cases.unreachable_f_retagged Sample.busyContext.
Proof.
  apply (classifiers_read_disjoint_location_fields
           Cases.unreachable_f Cases.unreachable_f_retagged Sample.busyContext);
    [reflexivity | reflexivity | split; reflexivity].
Defined.

(** The function [f] in three blocks and in one. *)
Lemma block_boundaries_are_irrelevant_witness :
  emitSILDataflowDiagnostics {| functions := [Sample.sil_f] |} Sample.busyContext =
  emitSILDataflowDiagnostics {| functions := [Cases.sil_f_one_block] |}
                             Sample.busyContext.
Proof.
  apply (block_boundaries_are_irrelevant
           {| functions := [Sample.sil_f] |}
           {| functions := [Cases.sil_f_one_block] |} Sample.busyContext).
  constructor; [split; reflexivity | constructor].
Defined.

(** The record of [g] is a record of the run over the sample module. *)
Lemma records_of_module_are_records_of_visits_witness :
  In Cases.record_g (log (emitSILDataflowDiagnostics Sample.module)).
Proof.
  apply (proj2 (records_of_module_are_records_of_visits Sample.module Cases.record_g)
           eq_refl (Sample.instruction 6)).
  - right; right; right; right; right; right; left. reflexivity.
  - left. reflexivity.
Defined.

(* ================================================================== *)
(** ** The pass on the store and the pass on values *)

Example sample_store_run :
  Store.emitSILDataflowDiagnostics sampleWorld =
  (Store.Finished tt,
   {| Store.IR := Sample.module;
      Store.Context := handed Sample.busyContext Sample.expected |}).
Proof. reflexivity. Qed.

Lemma Refines_ret M : Refines M (Store.ret tt) (ret tt).
Proof. intros C. reflexivity. Qed.

Lemma Refines_bind M (m : Store.Exec unit) (k : unit -> Store.Exec unit)
    (p : Pass unit) (q : unit -> Pass unit) :
  Refines M m p -> Refines M (k tt) (q tt) ->
  Refines M (Store.bind m k) (bind p q).
Proof.
  intros Hm Hk C. unfold Store.bind, bind. rewrite (Hm C).
  destruct (p C) as [[[]|] C']; simpl.
  - apply Hk.
  - reflexivity.
Qed.

(** A loop over pointers against a loop over the objects behind them. *)
Lemma Refines_forEach {A B} M (xs : list A) (ys : list B)
    (sbody : A -> Store.Exec unit) (pbody : B -> Pass unit) :
  Forall2 (fun x y => Refines M (sbody x) (pbody y)) xs ys ->
  Refines M (Store.forEach xs sbody) (forEach ys pbody).
Proof.
  induction 1 as [|x y xs ys Hxy _ IH]; simpl.
  - apply Refines_ret.
  - now apply Refines_bind.
Qed.

(** The pointers [f 0], [f 1], ... against the elements of [ys]. *)
Lemma Forall2_seq {A B} (R : A -> B -> Prop) (f : nat -> A) (ys : list B) k :
  (forall i y, nth_error ys i = Some y -> R (f (k + i)) y) ->
  Forall2 R (map f (seq k (List.length ys))) ys.
Proof.
  revert k. induction ys as [|y ys IH]; intros k H; simpl.
  - constructor.
  - constructor.
    + specialize (H 0 y eq_refl). now replace (k + 0) with k in H by lia.
    + apply IH. intros i z Hz. replace (S k + i) with (k + S i) by lia.
      now apply H.
Qed.

(** A snapshot gives the objects that the reads through the pointer
    return. *)
Lemma snapshot_reads M I P :
  snapshot M I = Some P ->
  forall C,
    let W := {| Store.IR := M; Store.Context := C |} in
    Store.instAt I W = Some (theInst P) /\
    Store.functionAt (Store.getParentFunction (Store.getParent I)) W =
      Some (enclosingFunction P).
Proof.
  intros H C. unfold snapshot in H.
  unfold Store.instAt, Store.blockAt, Store.functionAt,
    Store.getParentFunction, Store.getParent. simpl.
  destruct (nth_error (functions M) _) as [Fn|]; [|discriminate].
  destruct (nth_error (BlockList Fn) _) as [B|]; [|discriminate].
  destruct (nth_error (InstList B) _) as [i|]; [|discriminate].
  injection H as <-. split; reflexivity.
Qed.

Lemma Store_bind_load {A B} (find : Store.World -> option A)
    (k : A -> Store.Exec B) W a :
  find W = Some a -> Store.bind (Store.load find) k W = k a W.
Proof.
  intros H. unfold Store.bind, Store.load. now rewrite H.
Qed.

Lemma Store_bind_getLoc {B} M I P (k : SILLocation.t -> Store.Exec B) C :
  snapshot M I = Some P ->
  Store.bind (Store.getLoc I) k {| Store.IR := M; Store.Context := C |} =
  k (Inst.getLoc P) {| Store.IR := M; Store.Context := C |}.
Proof.
  intros H. destruct (snapshot_reads M I P H C) as [HI _].
  unfold Store.getLoc, Store.bind, Store.load, Store.ret. now rewrite HI.
Qed.

Lemma Store_bind_kindOf {B} M I P (k : ValueKind -> Store.Exec B) C :
  snapshot M I = Some P ->
  Store.bind (Store.kindOf I) k {| Store.IR := M; Store.Context := C |} =
  k (Inst.kind P) {| Store.IR := M; Store.Context := C |}.
Proof.
  intros H. destruct (snapshot_reads M I P H C) as [HI _].
  unfold Store.kindOf, Store.bind, Store.load, Store.ret. now rewrite HI.
Qed.

Lemma Store_bind_getLocation {B} M I P (k : SILLocation.t -> Store.Exec B) C :
  snapshot M I = Some P ->
  Store.bind (Store.getLocation (Store.getParentFunction (Store.getParent I))) k
             {| Store.IR := M; Store.Context := C |} =
  k (Fn.getLocation (enclosingFunction P))
    {| Store.IR := M; Store.Context := C |}.
Proof.
  intros H. destruct (snapshot_reads M I P H C) as [_ HF].
  unfold Store.getLocation, Store.bind, Store.load, Store.ret. now rewrite HF.
Qed.

Lemma Store_bind_checked {A B} (o : option A) (k : A -> Store.Exec B) W :
  Store.bind (Store.checked o) k W =
  match o with
  | Some a => k a W
  | None => (Store.Stopped, W)
  end.
Proof. unfold Store.bind, Store.checked. now destruct o. Qed.

Lemma bind_checked {A B} (o : option A) (k : A -> Pass B) C :
  bind (checked o) k C =
  match o with
  | Some a => k a C
  | None => (AssertionFailed, C)
  end.
Proof. unfold bind, checked. now destruct o. Qed.

(** Steps over the reads at the head of a computation on the store. *)
Ltac step_reads H :=
  repeat first
    [ rewrite (Store_bind_getLoc _ _ _ _ _ H)
    | rewrite (Store_bind_getLocation _ _ _ _ _ H)
    | rewrite (Store_bind_kindOf _ _ _ _ _ H) ].

Lemma Store_diagnoseMissingReturn_refines M I P :
  snapshot M I = Some P ->
  Refines M (Store.diagnoseMissingReturn I) (diagnoseMissingReturn P).
Proof.
  intros H C. unfold Store.diagnoseMissingReturn, diagnoseMissingReturn.
  cbv zeta. rewrite (Store_bind_getLocation _ _ _ _ _ H).
  fold (enclosingFunction P).
  destruct (SILLocation.getAsASTNode_FuncDecl _) as [FD|]; [|reflexivity].
  destruct (isVoid _); [reflexivity|].
  rewrite Store_bind_checked, bind_checked.
  destruct (castTo_AnyFunctionType _) as [T|]; [|reflexivity].
  destruct (isNoReturn T); [reflexivity|].
  rewrite (Store_bind_getLoc _ _ _ _ _ H).
  unfold Store.bind, Store.assert, Store.diagnose, bind, assert, diagnose.
  destruct (SILLocation.toBool _); reflexivity.
Qed.

Lemma Store_diagnoseNonExhaustiveSwitch_refines M I P :
  snapshot M I = Some P ->
  Refines M (Store.diagnoseNonExhaustiveSwitch I) (diagnoseNonExhaustiveSwitch P).
Proof.
  intros H C. unfold Store.diagnoseNonExhaustiveSwitch, diagnoseNonExhaustiveSwitch.
  cbv zeta. rewrite (Store_bind_getLoc _ _ _ _ _ H).
  unfold Store.bind, Store.assert, Store.diagnose, bind, assert, diagnose.
  destruct (SILLocation.toBool _); reflexivity.
Qed.

Lemma Store_diagnoseUnreachable_refines M I P :
  snapshot M I = Some P ->
  Refines M (Store.diagnoseUnreachable I) (diagnoseUnreachable P).
Proof.
  intros H C.
  unfold Store.diagnoseUnreachable, Store.dyn_cast_UnreachableInst,
    diagnoseUnreachable, dyn_cast_UnreachableInst.
  unfold Store.bind at 1. rewrite (Store_bind_kindOf _ _ _ _ _ H).
  unfold Store.ret at 1.
  destruct (Inst.kind P); try reflexivity.
  cbv zeta. rewrite (Store_bind_getLoc _ _ _ _ _ H).
  destruct (negb _); [reflexivity|].
  destruct (SILLocation.isASTNode_AbstractFunctionDecl _).
  { now apply Store_diagnoseMissingReturn_refines. }
  destruct (SILLocation.isASTNode_SwitchStmt _); [|reflexivity].
  now apply Store_diagnoseNonExhaustiveSwitch_refines.
Qed.

Lemma Store_diagnoseReturn_refines M I P :
  snapshot M I = Some P ->
  Refines M (Store.diagnoseReturn I) (diagnoseReturn P).
Proof.
  intros H C.
  unfold Store.diagnoseReturn, Store.dyn_cast_TermInst,
    diagnoseReturn, dyn_cast_TermInst, isa_BranchInst, isa_ReturnInst.
  unfold Store.bind at 1. rewrite (Store_bind_kindOf _ _ _ _ _ H).
  unfold Store.ret at 1.
  destruct (Inst.kind P) eqn:K; try reflexivity.
  all: unfold Store.isa_BranchInst, Store.isa_ReturnInst;
    unfold Store.bind at 1; rewrite (Store_bind_kindOf _ _ _ _ _ H);
    unfold Store.ret at 1;
    unfold Store.bind at 1; rewrite (Store_bind_kindOf _ _ _ _ _ H);
    unfold Store.ret at 1;
    rewrite K; cbv beta iota zeta delta [negb orb]; try reflexivity.
  all: rewrite (Store_bind_getLocation _ _ _ _ _ H);
    fold (enclosingFunction P);
    (destruct (SILLocation.getAsASTNode_FuncDecl _) as [FD|]; [|reflexivity]);
    rewrite Store_bind_checked, bind_checked;
    (destruct (castTo_AnyFunctionType _) as [T|]; [|reflexivity]);
    (destruct (isNoReturn T); [|reflexivity]);
    rewrite (Store_bind_getLoc _ _ _ _ _ H);
    unfold Store.bind, Store.diagnose, Store.ret, bind, diagnose, ret;
    destruct (SILLocation.is_ReturnLocation _);
    destruct (SILLocation.is_ImplicitReturnLocation _); reflexivity.
Qed.

Lemma Store_bind_eval {A B} (m : Store.Exec A) (k : A -> Store.Exec B) W a W' :
  m W = (Store.Finished a, W') -> Store.bind m k W = k a W'.
Proof.
  intros H. unfold Store.bind. now rewrite H.
Qed.

Lemma Store_visit_refines M I P :
  snapshot M I = Some P ->
  Refines M (Store.bind (Store.diagnoseUnreachable I)
                        (fun _ => Store.diagnoseReturn I))
          (visitInstruction P).
Proof.
  intros H. unfold visitInstruction. apply Refines_bind.
  - now apply Store_diagnoseUnreachable_refines.
  - now apply Store_diagnoseReturn_refines.
Qed.

(** The loop over the instructions of a block. *)
Lemma Store_block_refines M F b Fn B :
  nth_error (functions M) F = Some Fn ->
  nth_error (BlockList Fn) b = Some B ->
  Refines M
    (Store.bind
       (Store.instructionsOf {| Store.ownerFunction := F; Store.blockIndex := b |})
       (fun Is => Store.forEach Is (fun I =>
          Store.bind (Store.diagnoseUnreachable I)
                     (fun _ => Store.diagnoseReturn I))))
    (forEach (InstList B) (fun i =>
       visitInstruction
         {| theInst := i;
            parentBlock := {| theBlock := B; parentFunction := Fn |} |})).
Proof.
  intros HF HB C.
  rewrite Store_bind_eval
    with (a := map (fun i => {| Store.ownerBlock :=
                                  {| Store.ownerFunction := F;
                                     Store.blockIndex := b |};
                                Store.instIndex := i |})
                   (seq 0 (List.length (InstList B))))
         (W' := {| Store.IR := M; Store.Context := C |}).
  2: { unfold Store.instructionsOf.
       rewrite (Store_bind_load _ _ _ B); [reflexivity|].
       unfold Store.blockAt, Store.functionAt. simpl. now rewrite HF. }
  revert C. apply Refines_forEach, Forall2_seq.
  intros j i Hj. apply Store_visit_refines.
  unfold snapshot. simpl. now rewrite HF, HB, Hj.
Qed.

(** The loop over the blocks of a function. *)
Lemma Store_function_refines M F Fn :
  nth_error (functions M) F = Some Fn ->
  Refines M
    (Store.bind (Store.blocksOf F)
       (fun BBs => Store.forEach BBs (fun BB =>
          Store.bind (Store.instructionsOf BB)
            (fun Is => Store.forEach Is (fun I =>
               Store.bind (Store.diagnoseUnreachable I)
                          (fun _ => Store.diagnoseReturn I))))))
    (forEach (BlockList Fn) (fun B =>
       forEach (InstList B) (fun i =>
         visitInstruction
           {| theInst := i;
              parentBlock := {| theBlock := B; parentFunction := Fn |} |}))).
Proof.
  intros HF C.
  rewrite Store_bind_eval
    with (a := map (fun b => {| Store.ownerFunction := F; Store.blockIndex := b |})
                   (seq 0 (List.length (BlockList Fn))))
         (W' := {| Store.IR := M; Store.Context := C |}).
  2: { unfold Store.blocksOf.
       rewrite (Store_bind_load _ _ _ Fn); [reflexivity|].
       unfold Store.functionAt. simpl. exact HF. }
  revert C. apply Refines_forEach, Forall2_seq.
  intros b B HB. now apply Store_block_refines.
Qed.

(** The pass on the store does to the context what the pass on values
    does, and nothing to the module. *)
Lemma Store_emitSILDataflowDiagnostics_refines M :
  Refines M Store.emitSILDataflowDiagnostics (emitSILDataflowDiagnostics M).
Proof.
  intros C. unfold Store.emitSILDataflowDiagnostics, emitSILDataflowDiagnostics.
  unfold Store.bind at 1, Store.functionsOf. simpl Store.IR.
  revert C. rewrite <- (map_id (seq 0 _)).
  apply Refines_forEach, Forall2_seq.
  intros F Fn HF. now apply Store_function_refines.
Qed.

(* ================================================================== *)
(** ** The IR is only read *)

Lemma PreservesIR_ret {A} (a : A) : PreservesIR (Store.ret a).
Proof. intros W. reflexivity. Qed.

Lemma PreservesIR_assert b : PreservesIR (Store.assert b).
Proof. intros W. reflexivity. Qed.

Lemma PreservesIR_checked {A} (o : option A) : PreservesIR (Store.checked o).
Proof. intros W. reflexivity. Qed.

Lemma PreservesIR_load {A} (find : Store.World -> option A) :
  PreservesIR (Store.load find).
Proof. intros W. reflexivity. Qed.

Lemma PreservesIR_diagnose loc id args : PreservesIR (Store.diagnose loc id args).
Proof. intros W. reflexivity. Qed.

Lemma PreservesIR_bind {A B} (m : Store.Exec A) (k : A -> Store.Exec B) :
  PreservesIR m -> (forall a, PreservesIR (k a)) -> PreservesIR (Store.bind m k).
Proof.
  intros Hm Hk W. unfold Store.bind. specialize (Hm W).
  destruct (m W) as [[a| |] W']; simpl in *.
  - now rewrite (Hk a W').
  - exact Hm.
  - exact Hm.
Qed.

Create HintDb preserves_IR.
#[local] Hint Resolve PreservesIR_ret PreservesIR_assert PreservesIR_checked
  PreservesIR_load PreservesIR_diagnose PreservesIR_bind : preserves_IR.

(** Splits a [PreservesIR] goal along the branches of the code. *)
Ltac preserves_IR :=
  cbv zeta;
  repeat match goal with
         | |- PreservesIR (match ?x with _ => _ end) => destruct x
         | |- PreservesIR (Store.bind _ _) => apply PreservesIR_bind; [|intros ?]
         | |- PreservesIR _ => solve [auto with preserves_IR]
         end.

Lemma PreservesIR_kindOf I : PreservesIR (Store.kindOf I).
Proof. unfold Store.kindOf. preserves_IR. Qed.

Lemma PreservesIR_getLoc I : PreservesIR (Store.getLoc I).
Proof. unfold Store.getLoc. preserves_IR. Qed.

Lemma PreservesIR_getLocation F : PreservesIR (Store.getLocation F).
Proof. unfold Store.getLocation. preserves_IR. Qed.

#[local] Hint Resolve PreservesIR_kindOf PreservesIR_getLoc
  PreservesIR_getLocation : preserves_IR.

Lemma PreservesIR_diagnoseMissingReturn UI :
  PreservesIR (Store.diagnoseMissingReturn UI).
Proof. unfold Store.diagnoseMissingReturn. preserves_IR. Qed.

Lemma PreservesIR_diagnoseNonExhaustiveSwitch UI :
  PreservesIR (Store.diagnoseNonExhaustiveSwitch UI).
Proof. unfold Store.diagnoseNonExhaustiveSwitch. preserves_IR. Qed.

Lemma PreservesIR_diagnoseUnreachable I : PreservesIR (Store.diagnoseUnreachable I).
Proof.
  unfold Store.diagnoseUnreachable, Store.dyn_cast_UnreachableInst.
  pose proof PreservesIR_diagnoseMissingReturn.
  pose proof PreservesIR_diagnoseNonExhaustiveSwitch.
  preserves_IR.
Qed.

Lemma PreservesIR_diagnoseReturn I : PreservesIR (Store.diagnoseReturn I).
Proof.
  unfold Store.diagnoseReturn, Store.dyn_cast_TermInst,
    Store.isa_BranchInst, Store.isa_ReturnInst.
  preserves_IR.
Qed.

(** The frame property is one of the pass, not of every computation on
    the store. *)
Example some_computation_changes_the_IR :
  exists m : Store.Exec unit, ~ PreservesIR m.
Proof.
  exists (fun W => (Store.Finished tt,
                    {| Store.IR := {| functions := [] |};
                       Store.Context := Store.Context W |})).
  intros H. specialize (H sampleWorld). discriminate H.
Qed.

(** C8.  A run of the pass on the store leaves the module as it found
    it, with every function, block, instruction and location, and does
    nothing to the context but append the records of the pass to its
    engine; it never follows a pointer out of the module.  The classifiers
    leave the module alone whatever pointer they are called on. *)
Theorem pass_leaves_the_IR_unchanged (W : Store.World) :
  Store.emitSILDataflowDiagnostics W =
    (ofOutcome (outcome (emitSILDataflowDiagnostics (Store.IR W))),
     {| Store.IR := Store.IR W;
        Store.Context :=
          handed (Store.Context W)
                 (log (emitSILDataflowDiagnostics (Store.IR W))) |}) /\
  forall I,
    Store.IR (snd (Store.diagnoseUnreachable I W)) = Store.IR W /\
    Store.IR (snd (Store.diagnoseReturn I W)) = Store.IR W.
Proof.
  split.
  - destruct W as [M C]. simpl.
    rewrite (Store_emitSILDataflowDiagnostics_refines M C).
    now rewrite (WriteOnly_emitSILDataflowDiagnostics M C).
  - intros I. split.
    + apply PreservesIR_diagnoseUnreachable.
    + apply PreservesIR_diagnoseReturn.
Qed.
